(** * rn-custom-textinput: the OTP, split and style logic of CustomTextInput

    A shallow embedding of [src/CustomTextInput.tsx].  The component is a
    React function component: its handlers are closures over the props and
    over the state of the render that created them.  Here every handler is a
    function from the state it closes over to the state after its [setState]
    calls, paired with the list of observable events it produced, in program
    order (console warnings, calls of the caller's callbacks, focus and blur
    calls on the native inputs, timers).

    JavaScript values are modelled as follows.
    - A string is the list of its UTF-16 code units ([N]); indexing and
      [length] count code units, as in JavaScript.
    - An array of strings is a list of [option]: [None] stands for
      [undefined] and for a hole, which every operation used by the
      component ([...spread], [join], [findIndex], [arr[i]]) treats alike.
    - A number that is used as an index is a [Z]; the [otpLength] prop, which
      the caller may set to any number, is a [jsnum] until a render has
      accepted it as an array length.
    - [splitValues] is a finite map from keys to strings.

    Left out: the label, icon, error and helper-text elements of the
    rendered tree, the props forwarded verbatim to the native input, the
    split refs, and the cleanup of the auto-focus timer. *)

From Stdlib Require Import ZArith QArith Lia String Ascii.
From stdpp Require Import base option list gmap numbers strings.

Local Open Scope Z_scope.

(** ** JavaScript strings *)

Abbreviation jsstring := (list N).

(** The code units of an ASCII literal. *)
Definition js (s : string) : jsstring := N_of_ascii <$> list_ascii_of_string s.

(** [!!s] for a string: only the empty string is falsy. *)
Definition truthy_string (s : jsstring) : bool :=
  match s with [] => false | _ :: _ => true end.

(** [!!v] for a value of type [string | undefined]. *)
Definition truthy (v : option jsstring) : bool :=
  match v with Some s => truthy_string s | None => false end.

(** The code units matched by the regular expression class [\s]
    (ECMAScript WhiteSpace and LineTerminator). *)
Definition isWhiteSpace (c : N) : bool :=
  ((c =? 0x0009) || (c =? 0x000A) || (c =? 0x000B) || (c =? 0x000C)
   || (c =? 0x000D) || (c =? 0x0020) || (c =? 0x00A0) || (c =? 0x1680)
   || ((0x2000 <=? c) && (c <=? 0x200A))
   || (c =? 0x2028) || (c =? 0x2029) || (c =? 0x202F) || (c =? 0x205F)
   || (c =? 0x3000) || (c =? 0xFEFF))%N.

(** [text.replace(/\s/g, "")] *)
Fixpoint replace_whitespace (text : jsstring) : jsstring :=
  match text with
  | [] => []
  | c :: rest =>
      if isWhiteSpace c then replace_whitespace rest
      else c :: replace_whitespace rest
  end.

Fixpoint trimStart (s : jsstring) : jsstring :=
  match s with
  | [] => []
  | c :: rest => if isWhiteSpace c then trimStart rest else s
  end.

(** [s.trim()] *)
Definition trim (s : jsstring) : jsstring :=
  reverse (trimStart (reverse (trimStart s))).

(** ** JavaScript arrays with [undefined] entries *)

(** [arr[i]] *)
Definition array_get {A} (arr : list (option A)) (i : Z) : option A :=
  if i <? 0 then None else mjoin (arr !! Z.to_nat i).

(** [arr[i] = v]: in range the slot is overwritten; at or past the end the
    array grows, the slots in between being holes.  A negative [i] is not an
    array index and leaves the elements alone. *)
Definition array_set {A} (arr : list (option A)) (i : Z) (v : A)
  : list (option A) :=
  if i <? 0 then arr
  else if i <? Z.of_nat (length arr) then <[Z.to_nat i := Some v]> arr
  else arr ++ replicate (Z.to_nat i - length arr)%nat None ++ [Some v].

(** [arr.join("")]: [undefined] and holes contribute the empty string. *)
Definition join (arr : list (option jsstring)) : jsstring :=
  concat (default [] <$> arr).

(** [arr.findIndex((value, index) => p(value, index))], scanning from the
    slot numbered [index]. *)
Fixpoint findIndex_from {A} (p : A → Z → bool) (arr : list A) (index : Z) : Z :=
  match arr with
  | [] => -1
  | value :: rest =>
      if p value index then index else findIndex_from p rest (index + 1)
  end.

Definition findIndex {A} (p : A → Z → bool) (arr : list A) : Z :=
  findIndex_from p arr 0.

(** [for (let i = start; i < stop; i++) body(i)] over a state [S]. *)
Definition for_range {S} (start stop : nat) (body : nat → S → S) (s : S) : S :=
  foldl (λ acc i, body i acc) s (seq start (stop - start)).

(** ** JavaScript numbers, as far as [otpLength] needs them *)

Inductive jsnum :=
| NaN
| Infinity (negative : bool)
| Finite (q : Q).

Definition of_Z (z : Z) : jsnum := Finite (inject_Z z).

(** [Number.isInteger(x)] *)
Definition isInteger (x : jsnum) : bool :=
  match x with
  | Finite q => Z.rem (Qnum q) (Z.pos (Qden q)) =? 0
  | _ => false
  end.

(** [a <= b] on numbers; every comparison with [NaN] is false. *)
Definition num_le (a b : jsnum) : bool :=
  match a, b with
  | NaN, _ | _, NaN => false
  | Infinity true, _ => true
  | _, Infinity false => true
  | Infinity false, _ => false
  | _, Infinity true => false
  | Finite p, Finite q => Qle_bool p q
  end.

(** The length an array constructor accepts: an integer in [0, 2^32 - 1]. *)
Definition array_length (x : jsnum) : option Z :=
  match x with
  | Finite q =>
      if isInteger x && Qle_bool 0 q && Qle_bool q (inject_Z (2 ^ 32 - 1))
      then Some (Qnum q / Z.pos (Qden q))
      else None
  | _ => None
  end.

Inductive JsError := RangeError.

(** The outcome of evaluating code that may throw. *)
Inductive completion (A : Type) :=
| Normal (a : A)
| Throw (e : JsError).
Arguments Normal {A} a.
Arguments Throw {A} e.

(** [new Array(len).fill("")] throws a [RangeError] ("Invalid array length")
    unless [len] is an array length. *)
Definition new_Array_fill (len : jsnum) : completion (list (option jsstring)) :=
  match array_length len with
  | Some n => Normal (replicate (Z.to_nat n) (Some []))
  | None => Throw RangeError
  end.

(** ** State of a component instance and the events a handler produces *)

(** A [React.RefObject<TextInput>]: [current] is the mounted native input,
    identified by the index of the OTP cell that rendered it, or [null]. *)
Record RefObject := { current : option Z }.

#[global] Instance RefObject_eq_dec : EqDecision RefObject.
Proof. solve_decision. Defined.

(** [React.createRef()] *)
Definition createRef : RefObject := {| current := None |}.

(** The [useState] and [useRef] cells the OTP and split logic reads. *)
Record State := {
  isFocused : bool;
  otpValues : list (option jsstring);
  otpFocusedIndex : Z;
  splitFocusedKey : jsstring;
  otpRefs : list RefObject;
}.

Definition setIsFocused (b : bool) (st : State) : State :=
  {| isFocused := b; otpValues := otpValues st;
     otpFocusedIndex := otpFocusedIndex st;
     splitFocusedKey := splitFocusedKey st; otpRefs := otpRefs st |}.

Definition setOtpValues (newValues : list (option jsstring)) (st : State) : State :=
  {| isFocused := isFocused st; otpValues := newValues;
     otpFocusedIndex := otpFocusedIndex st;
     splitFocusedKey := splitFocusedKey st; otpRefs := otpRefs st |}.

Definition setOtpFocusedIndex (index : Z) (st : State) : State :=
  {| isFocused := isFocused st; otpValues := otpValues st;
     otpFocusedIndex := index;
     splitFocusedKey := splitFocusedKey st; otpRefs := otpRefs st |}.

Definition setSplitFocusedKey (key : jsstring) (st : State) : State :=
  {| isFocused := isFocused st; otpValues := otpValues st;
     otpFocusedIndex := otpFocusedIndex st;
     splitFocusedKey := key; otpRefs := otpRefs st |}.

Definition setOtpRefs (refs : list RefObject) (st : State) : State :=
  {| isFocused := isFocused st; otpValues := otpValues st;
     otpFocusedIndex := otpFocusedIndex st;
     splitFocusedKey := splitFocusedKey st; otpRefs := refs |}.

(** The values of React Native's [KeyboardTypeOptions]; none is falsy. *)
Inductive KeyboardTypeOptions :=
| kb_default | kb_number_pad | kb_decimal_pad | kb_numeric | kb_email_address
| kb_phone_pad | kb_url | kb_ascii_capable | kb_numbers_and_punctuation
| kb_name_phone_pad | kb_twitter | kb_web_search | kb_visible_password.

Inductive AutoCapitalize := cap_none | cap_sentences | cap_words | cap_characters.

(** A [SplitField] descriptor; [field_key f] is [f.key], and an unset
    optional member is [None]. *)
Record SplitField := {
  field_key : jsstring;
  field_placeholder : option jsstring;
  field_value : option jsstring;
  field_flex : option Q;
  field_keyboardType : option KeyboardTypeOptions;
  field_autoCapitalize : option AutoCapitalize;
  field_maxLength : option Z;
  field_secureTextEntry : option bool;
  field_editable : option bool;
}.

(** The developer diagnostics, one constructor per [console.warn] call. *)
Inductive Warning :=
| WarnOtpLength (received : jsnum)
| WarnOtpValueTooLong (otpLength : jsnum) (received : jsstring)
| WarnSplitUniqueKeys
| WarnSplitFields (received : list SplitField)
| WarnInvalidOtpIndex (index last : Z)
| WarnInvalidPasteIndex (index : Z)
| WarnInvalidKeyPressIndex (index : Z)
| WarnInvalidSplitKey (key : jsstring).

(** The body of a [setTimeout] callback of the component; it reads
    [otpRefs.current] when it fires. *)
Inductive TimerCallback :=
| TimerFocus (index : Z)   (* otpRefs.current[index]?.current?.focus() *)
| TimerBlur (index : Z).   (* otpRefs.current[index]?.current?.blur() *)

Inductive Event :=
| ConsoleWarn (w : Warning)
| OnOtpChange (otp : jsstring)
| OnSplitChange (values : gmap jsstring jsstring) (key value : jsstring)
| NativeFocus (cell : Z)
| NativeBlur (cell : Z)
| SetTimeout (callback : TimerCallback) (ms : Z).

(** [refs[index]?.current?.focus()]: nothing happens when the slot holds no
    ref or the ref is not attached. *)
Definition ref_focus (refs : list RefObject) (index : Z) : list Event :=
  if index <? 0 then []
  else match refs !! Z.to_nat index with
       | Some {| current := Some cell |} => [NativeFocus cell]
       | _ => []
       end.

(** [refs[index]?.current?.blur()] *)
Definition ref_blur (refs : list RefObject) (index : Z) : list Event :=
  if index <? 0 then []
  else match refs !! Z.to_nat index with
       | Some {| current := Some cell |} => [NativeBlur cell]
       | _ => []
       end.

(** What a timer does when it fires, given [otpRefs.current] at that time. *)
Definition fire (refs : list RefObject) (callback : TimerCallback) : list Event :=
  match callback with
  | TimerFocus index => ref_focus refs index
  | TimerBlur index => ref_blur refs index
  end.

(** ** The OTP handlers *)

Section OtpHandlers.

(** The props the handlers close over.  A render that reaches the handlers
    has passed [otpLength] to [new Array], so it is an integer here.
    [onOtpChange] tells whether the caller supplied the callback; its calls
    are recorded as [OnOtpChange] events. *)
Variable otpLength : Z.
Variable onOtpChange : bool.

(** [if (onOtpChange) onOtpChange(newValues.join(""))] *)
Definition call_onOtpChange (newValues : list (option jsstring)) : list Event :=
  if onOtpChange then [OnOtpChange (join newValues)] else [].

(** The distribution loop of [handleOtpPaste]; [rest] is the part of
    [cleanedText] from position [i] on, so [i < cleanedText.length] holds
    exactly when [rest] is not empty and [cleanedText[i]] is its head. *)
Fixpoint paste_loop (rest : jsstring) (i currentIndex : Z)
    (newValues : list (option jsstring)) (nextFocusIndex : Z)
  : list (option jsstring) * Z :=
  match rest with
  | [] => (newValues, nextFocusIndex)
  | char :: rest' =>
      if currentIndex + i <? otpLength then
        paste_loop rest' (i + 1) currentIndex
          (array_set newValues (currentIndex + i) [char])
          (currentIndex + i)
      else (newValues, nextFocusIndex)
  end.

(** The focus decision that ends [handleOtpPaste]; each branch only
    schedules a timer. *)
Definition paste_focus (newValues : list (option jsstring))
    (nextFocusIndex : Z) : TimerCallback :=
  let nextEmptyIndex :=
    findIndex (λ value index, negb (truthy value) && (index >? nextFocusIndex))
      newValues in
  if negb (nextEmptyIndex =? -1) then TimerFocus nextEmptyIndex
  else if nextFocusIndex + 1 <? otpLength then TimerFocus (nextFocusIndex + 1)
  else TimerBlur nextFocusIndex.

Definition handleOtpPaste (pastedText : jsstring) (currentIndex : Z)
    (st : State) : State * list Event :=
  if (currentIndex <? 0) || (currentIndex >=? otpLength) then
    (st, [ConsoleWarn (WarnInvalidPasteIndex currentIndex)])
  else
    let cleanedText := replace_whitespace pastedText in
    if negb (truthy_string cleanedText) then (st, [])
    else
      let '(newValues, nextFocusIndex) :=
        paste_loop cleanedText 0 currentIndex (otpValues st) currentIndex in
      (setOtpValues newValues st,
       call_onOtpChange newValues
         ++ [SetTimeout (paste_focus newValues nextFocusIndex) 50]).

Definition handleOtpChange (text : jsstring) (index : Z) (st : State)
  : State * list Event :=
  if (index <? 0) || (index >=? otpLength) then
    (st, [ConsoleWarn (WarnInvalidOtpIndex index (otpLength - 1))])
  else if Z.of_nat (length text) >? 1 then handleOtpPaste text index st
  else
    let newValues := array_set (otpValues st) index text in
    (setOtpValues newValues st,
     call_onOtpChange newValues
       ++ (if truthy_string text && (index <? otpLength - 1)
           then ref_focus (otpRefs st) (index + 1) else [])).

(** [key] is [event.nativeEvent.key]. *)
Definition handleOtpKeyPress (key : jsstring) (index : Z) (st : State)
  : State * list Event :=
  if (index <? 0) || (index >=? otpLength) then
    (st, [ConsoleWarn (WarnInvalidKeyPressIndex index)])
  else if bool_decide (key = js "Backspace") then
    if negb (truthy (array_get (otpValues st) index)) && (index >? 0)
    then (st, ref_focus (otpRefs st) (index - 1))
    else (st, [])
  else (st, []).

Definition handleOtpFocus (index : Z) (st : State) : State * list Event :=
  if (index >=? 0) && (index <? otpLength)
  then (setOtpFocusedIndex index st, [])
  else (st, []).

Definition handleOtpBlur (st : State) : State * list Event :=
  (setOtpFocusedIndex (-1) st, []).

End OtpHandlers.

(** ** Style fragments and the style sheet *)

Inductive StyleValue :=
| SNum (n : Z)
| SStr (s : string).

(** A [ViewStyle] or [TextStyle] object: its properties in order. *)
Definition Style := list (string * StyleValue).

(** The constants of [StyleSheet.create] that the style functions use. *)
Module styles.
Definition inputContainer : Style :=
  [("flexDirection", SStr "row"); ("alignItems", SStr "center");
   ("borderWidth", SNum 1); ("borderColor", SStr "#D1D5DB");
   ("borderRadius", SNum 8); ("backgroundColor", SStr "#FFFFFF");
   ("paddingHorizontal", SNum 12); ("minHeight", SNum 48)]%string.
Definition focusedInputContainer : Style :=
  [("borderColor", SStr "#3B82F6"); ("borderWidth", SNum 2)]%string.
Definition disabledInputContainer : Style :=
  [("backgroundColor", SStr "#F9FAFB"); ("borderColor", SStr "#E5E7EB")]%string.
Definition errorInputContainer : Style :=
  [("borderColor", SStr "#EF4444")]%string.
Definition input : Style :=
  [("flex", SNum 1); ("fontSize", SNum 16); ("color", SStr "#111827");
   ("paddingVertical", SNum 12)]%string.
Definition disabledInput : Style := [("color", SStr "#9CA3AF")]%string.
Definition placeholder : Style := [("color", SStr "#9CA3AF")]%string.
Definition otpInputContainer : Style :=
  [("width", SNum 48); ("height", SNum 56); ("borderWidth", SNum 1);
   ("borderColor", SStr "#D1D5DB"); ("borderRadius", SNum 8);
   ("backgroundColor", SStr "#FFFFFF"); ("justifyContent", SStr "center");
   ("alignItems", SStr "center"); ("marginHorizontal", SNum 4)]%string.
Definition otpFocusedInputContainer : Style :=
  [("borderColor", SStr "#3B82F6"); ("borderWidth", SNum 2)]%string.
Definition otpInput : Style :=
  [("fontSize", SNum 18); ("fontWeight", SStr "600");
   ("color", SStr "#111827"); ("textAlign", SStr "center");
   ("width", SStr "100%"); ("height", SStr "100%")]%string.
Definition splitInputContainer : Style :=
  [("borderWidth", SNum 1); ("borderColor", SStr "#D1D5DB");
   ("borderRadius", SNum 8); ("backgroundColor", SStr "#FFFFFF");
   ("paddingHorizontal", SNum 12); ("minHeight", SNum 48);
   ("justifyContent", SStr "center")]%string.
Definition splitFocusedInputContainer : Style :=
  [("borderColor", SStr "#3B82F6"); ("borderWidth", SNum 2)]%string.
Definition splitInput : Style :=
  [("fontSize", SNum 16); ("color", SStr "#111827");
   ("paddingVertical", SNum 12)]%string.
End styles.

(** ** Props *)

Inductive InputType := type_default | type_otp | type_split.

(** The props after the destructuring defaults of the component have been
    applied ([secureTextEntry = false], [keyboardType = "default"],
    [autoCapitalize = "none"], [editable = true], [type = "default"],
    [otpLength = 6], [otpValue = ""], [otpAutoFocus = true],
    [splitFields = []], [splitValues = {}], [splitSpacing = 12]).  A prop
    without a default is an [option]; a callback is the flag that tells
    whether the caller supplied it. *)
Record Props := {
  secureTextEntry : bool;
  keyboardType : KeyboardTypeOptions;
  autoCapitalize : AutoCapitalize;
  editable : bool;
  maxLength : option Z;
  placeholderTextColor : option string;
  error : option jsstring;
  type : InputType;
  otpLength : jsnum;
  otpValue : jsstring;
  onOtpChange : bool;
  otpAutoFocus : bool;
  splitFields : list SplitField;
  splitValues : gmap jsstring jsstring;
  onSplitChange : bool;
  splitSpacing : Q;
  inputContainerStyle : option Style;
  inputStyle : option Style;
  focusedInputContainerStyle : option Style;
  focusedInputStyle : option Style;
  disabledInputContainerStyle : option Style;
  disabledInputStyle : option Style;
  otpInputContainerStyle : option Style;
  otpInputStyle : option Style;
  otpFocusedInputContainerStyle : option Style;
  otpFocusedInputStyle : option Style;
  splitInputContainerStyle : option Style;
  splitInputStyle : option Style;
  splitFocusedInputContainerStyle : option Style;
  splitFocusedInputStyle : option Style;
}.

(** ** Validation functions *)

(** [a >= 1 && a <= 20] and the like are [num_le] both ways. *)
Definition validateOtpLength (length : jsnum) : bool :=
  isInteger length && num_le (of_Z 1) length && num_le length (of_Z 20).

Definition validateOtpValue (value : jsstring) (maxLength : jsnum) : bool :=
  num_le (of_Z (Z.of_nat (length value))) maxLength.

(** Returns the verdict and what it logged on the way. *)
Definition validateSplitFields (fields : list SplitField) : bool * list Event :=
  if (length fields =? 0)%nat then (false, [])
  else
    let keys := field_key <$> fields in
    let uniqueKeys := remove_dups keys in
    if negb (length keys =? length uniqueKeys)%nat then
      (false, [ConsoleWarn WarnSplitUniqueKeys])
    else
      (forallb (λ field,
          truthy_string (field_key field)
          && (0 <? length (trim (field_key field)))%nat) fields, []).

(** ** The split handlers *)

Definition handleSplitChange (p : Props) (key text : jsstring) (st : State)
  : State * list Event :=
  match List.find (λ field, bool_decide (field_key field = key)) (splitFields p) with
  | None => (st, [ConsoleWarn (WarnInvalidSplitKey key)])
  | Some _ =>
      let newValues := <[key := text]> (splitValues p) in
      (st, if onSplitChange p then [OnSplitChange newValues key text] else [])
  end.

Definition handleSplitFocus (key : jsstring) (st : State) : State * list Event :=
  (setSplitFocusedKey key st, []).

Definition handleSplitBlur (st : State) : State * list Event :=
  (setSplitFocusedKey [] st, []).

(** ** The plain input's focus handlers, without the forwarding to the
    caller's [onFocus] and [onBlur] *)

Definition handleFocus (st : State) : State * list Event :=
  (setIsFocused true st, []).

Definition handleBlur (st : State) : State * list Event :=
  (setIsFocused false st, []).

(** ** Style resolution *)

(** [[a, b].filter(Boolean)] on style objects: an object is truthy. *)
Definition filter_Boolean (fragments : list Style) : list Style :=
  List.filter (λ _, true) fragments.

(** [style.push(fragment)] *)
Definition push (style : list Style) (fragment : Style) : list Style :=
  style ++ [fragment].

(** [if (override) style.push(override)] *)
Definition push_if_set (style : list Style) (override : option Style) : list Style :=
  match override with
  | Some fragment => push style fragment
  | None => style
  end.

(** [override ?? {}] *)
Definition or_empty (override : option Style) : Style := default [] override.

Definition getOtpInputContainerStyle (p : Props) (st : State) (index : Z)
  : list Style :=
  let style :=
    filter_Boolean [styles.otpInputContainer; or_empty (otpInputContainerStyle p)] in
  let style :=
    if otpFocusedIndex st =? index then
      push_if_set (push style styles.otpFocusedInputContainer)
        (otpFocusedInputContainerStyle p)
    else style in
  let style :=
    if negb (editable p) then
      push_if_set (push style styles.disabledInputContainer)
        (disabledInputContainerStyle p)
    else style in
  let style :=
    if truthy (error p) then push style styles.errorInputContainer else style in
  style.

Definition getOtpInputStyle (p : Props) (st : State) (index : Z) : list Style :=
  let style := filter_Boolean [styles.otpInput; or_empty (otpInputStyle p)] in
  let style :=
    if otpFocusedIndex st =? index
    then push_if_set style (otpFocusedInputStyle p) else style in
  let style :=
    if negb (editable p) then
      push_if_set (push style styles.disabledInput) (disabledInputStyle p)
    else style in
  style.

(** [!field.editable && field.editable !== undefined] *)
Definition field_disabled (field : SplitField) : bool :=
  match field_editable field with
  | Some b => negb b
  | None => false
  end.

Definition getSplitInputContainerStyle (p : Props) (st : State)
    (field : SplitField) : list Style :=
  let style :=
    filter_Boolean
      [styles.splitInputContainer; or_empty (splitInputContainerStyle p)] in
  let style :=
    if bool_decide (splitFocusedKey st = field_key field) then
      push_if_set (push style styles.splitFocusedInputContainer)
        (splitFocusedInputContainerStyle p)
    else style in
  let style :=
    if field_disabled field then
      push_if_set (push style styles.disabledInputContainer)
        (disabledInputContainerStyle p)
    else style in
  let style :=
    if truthy (error p) then push style styles.errorInputContainer else style in
  style.

Definition getSplitInputStyle (p : Props) (st : State) (field : SplitField)
  : list Style :=
  let style := filter_Boolean [styles.splitInput; or_empty (splitInputStyle p)] in
  let style :=
    if bool_decide (splitFocusedKey st = field_key field)
    then push_if_set style (splitFocusedInputStyle p) else style in
  let style :=
    if field_disabled field then
      push_if_set (push style styles.disabledInput) (disabledInputStyle p)
    else style in
  style.

Definition getInputContainerStyle (p : Props) (st : State) : list Style :=
  let style :=
    filter_Boolean [styles.inputContainer; or_empty (inputContainerStyle p)] in
  let style :=
    if isFocused st then
      push_if_set (push style styles.focusedInputContainer)
        (focusedInputContainerStyle p)
    else style in
  let style :=
    if negb (editable p) then
      push_if_set (push style styles.disabledInputContainer)
        (disabledInputContainerStyle p)
    else style in
  let style :=
    if truthy (error p) then push style styles.errorInputContainer else style in
  style.

Definition getInputStyle (p : Props) (st : State) : list Style :=
  let style := filter_Boolean [styles.input; or_empty (inputStyle p)] in
  let style :=
    if isFocused st then push_if_set style (focusedInputStyle p) else style in
  let style :=
    if negb (editable p) then
      push_if_set (push style styles.disabledInput) (disabledInputStyle p)
    else style in
  style.

(** ** Rendering *)

(** The props an OTP cell's [TextInput] and its wrapping [View] receive. *)
Record OtpCellView := {
  cell_containerStyle : list Style;
  cell_ref : option RefObject;
  cell_style : list Style;
  cell_value : jsstring;
  cell_maxLength : Z;
  cell_editable : bool;
  cell_secureTextEntry : bool;
}.

(** The props a split field's [TextInput] and its wrapping [View] receive. *)
Record SplitInputView := {
  input_key : jsstring;
  input_containerStyle : list Style;
  input_flex : Q;
  input_marginRight : Q;
  input_style : list Style;
  input_value : jsstring;
  input_placeholder : option jsstring;
  input_keyboardType : KeyboardTypeOptions;
  input_autoCapitalize : AutoCapitalize;
  input_maxLength : option Z;
  input_secureTextEntry : bool;
  input_editable : bool;
}.

Inductive View :=
| OtpView (cells : list OtpCellView)
| SplitView (inputs : list SplitInputView)
| DefaultView (containerStyle inputStyle : list Style).

(** [Array.from({ length: otpLength }, (_, index) => ...)] *)
Definition renderOtpInputs (p : Props) (L : Z) (st : State) : list OtpCellView :=
  (λ i : nat,
     let index := Z.of_nat i in
     {| cell_containerStyle := getOtpInputContainerStyle p st index;
        cell_ref := otpRefs st !! i;
        cell_style := getOtpInputStyle p st index;
        cell_value := default [] (array_get (otpValues st) index);
        cell_maxLength := L;
        cell_editable := editable p;
        cell_secureTextEntry := secureTextEntry p |})
  <$> seq 0 (Z.to_nat L).

(** [a || b] on a number that may be unset: [0] and [undefined] are falsy. *)
Definition num_or (a : option Q) (b : Q) : Q :=
  match a with
  | Some q => if Qeq_bool q 0 then b else q
  | None => b
  end.

(** [a || b] where [a] is an object-valued or enum-valued optional member. *)
Definition opt_or {A} (a : option A) (b : A) : A := default b a.

(** [a || b] on a boolean that may be unset. *)
Definition bool_or (a : option bool) (b : bool) : bool :=
  match a with
  | Some true => true
  | _ => b
  end.

Definition renderSplitInputs (p : Props) (st : State) : list SplitInputView :=
  imap (λ (index : nat) (field : SplitField),
     {| input_key := field_key field;
        input_containerStyle := getSplitInputContainerStyle p st field;
        input_flex := num_or (field_flex field) 1;
        input_marginRight :=
          if Z.of_nat index <? Z.of_nat (length (splitFields p)) - 1
          then splitSpacing p else 0%Q;
        input_style := getSplitInputStyle p st field;
        input_value :=
          match splitValues p !! field_key field with
          | Some v => v            (* [""] is falsy and [|| ""] gives it back *)
          | None => []
          end;
        input_placeholder := field_placeholder field;
        input_keyboardType := opt_or (field_keyboardType field) (keyboardType p);
        input_autoCapitalize :=
          opt_or (field_autoCapitalize field) (autoCapitalize p);
        input_maxLength := field_maxLength field;
        input_secureTextEntry :=
          bool_or (field_secureTextEntry field) (secureTextEntry p);
        input_editable :=
          match field_editable field with
          | Some b => b
          | None => editable p
          end |})
    (splitFields p).

(** The integer value of a number that [new Array] has accepted. *)
Definition to_int (x : jsnum) : Z := default 0 (array_length x).

Definition bind {A B} (c : completion A) (k : A → completion B) : completion B :=
  match c with
  | Normal a => k a
  | Throw e => Throw e
  end.

(** One evaluation of the component function.  The argument of
    [useState<string[]>(new Array(otpLength).fill(""))] is evaluated on every
    render, in every mode; React keeps its value only on the first one. *)
Definition render (p : Props) (st : State) : completion View :=
  bind (new_Array_fill (otpLength p)) (λ _,
    Normal
      match type p with
      | type_otp => OtpView (renderOtpInputs p (to_int (otpLength p)) st)
      | type_split => SplitView (renderSplitInputs p st)
      | type_default =>
          DefaultView (getInputContainerStyle p st) (getInputStyle p st)
      end).

(** The state the [useState] and [useRef] calls of the first render create. *)
Definition initial_state (p : Props) : completion State :=
  bind (new_Array_fill (otpLength p)) (λ values,
    Normal {| isFocused := false;
              otpValues := values;
              otpFocusedIndex := if otpAutoFocus p then 0 else -1;
              splitFocusedKey := [];
              otpRefs := [] |}).

(** ** Effects *)

(** "Validation on mount and prop changes" *)
Definition validation_effect (p : Props) : list Event :=
  (match type p with
   | type_otp =>
       (if negb (validateOtpLength (otpLength p))
        then [ConsoleWarn (WarnOtpLength (otpLength p))] else [])
       ++ (if truthy_string (otpValue p)
              && negb (validateOtpValue (otpValue p) (otpLength p))
           then [ConsoleWarn (WarnOtpValueTooLong (otpLength p) (otpValue p))]
           else [])
   | _ => []
   end)
  ++ (match type p with
      | type_split =>
          let '(valid, logged) := validateSplitFields (splitFields p) in
          logged ++ (if negb valid
                     then [ConsoleWarn (WarnSplitFields (splitFields p))] else [])
      | _ => []
      end).

(** "Initialize OTP refs": the ref array is cut or extended to [otpLength];
    the loop starts at the array's length, so each [otpRefs.current[i] = ...]
    appends.  Then the cells are seeded from [otpValue] when it is not empty
    and fits. *)
Definition otp_init_effect (p : Props) (st : State) : State :=
  match type p with
  | type_otp =>
      let L := to_int (otpLength p) in
      let refs := take (Z.to_nat L) (otpRefs st) in
      let refs :=
        for_range (length refs) (Z.to_nat L) (λ _ refs, refs ++ [createRef]) refs in
      let st := setOtpRefs refs st in
      if truthy_string (otpValue p) && (Z.of_nat (length (otpValue p)) <=? L) then
        let newValues := replicate (Z.to_nat L) (Some []) in
        let newValues :=
          for_range 0 (length (otpValue p))
            (λ i newValues,
               array_set newValues (Z.of_nat i)
                 (match otpValue p !! i with
                  | Some c => [c]
                  | None => []       (* [undefined || ""] *)
                  end))
            newValues in
        setOtpValues newValues st
      else st
  | _ => st
  end.

(** "Auto focus first input for OTP" *)
Definition auto_focus_effect (p : Props) (st : State) : list Event :=
  match type p, otpAutoFocus p, otpRefs st !! 0%nat with
  | type_otp, true, Some _ => [SetTimeout (TimerFocus 0) 100]
  | _, _, _ => []
  end.

(** Mounting: the first render, then the effects in the order of their
    declaration.  The result is the state the effects leave, what was logged
    or scheduled, and the rendered view. *)
Definition mount (p : Props) : completion (State * list Event * View) :=
  bind (initial_state p) (λ st0,
  bind (render p st0) (λ view,
    let st1 := otp_init_effect p st0 in
    Normal (st1, validation_effect p ++ auto_focus_effect p st1, view))).

(** A render of a mounted instance after [otpLength] or [otpValue] changed,
    followed by the two effects that depend on them.  (A change of [type]
    would also re-run the auto-focus effect, which is not part of this.) *)
Definition update (p : Props) (st : State) : completion (State * list Event * View) :=
  bind (render p st) (λ view,
    let st1 := otp_init_effect p st in
    Normal (st1, validation_effect p, view)).

(** ** Notions used to state the properties *)

(** Every OTP cell's ref points at the input rendered for that cell: what
    React establishes when it commits a render that passed
    [ref={otpRefs.current[index]}] for the [L] cells. *)
Definition refs_attached (L : Z) (refs : list RefObject) : bool :=
  forallb (λ i : nat,
      bool_decide (refs !! i = Some {| current := Some (Z.of_nat i) |}))
    (seq 0 (Z.to_nat L)).

(** Slot [j] of the stored cell array exists and holds no character.  The
    array is what [findIndex] scans; its length is the configured length
    after a mount, but a later change of [otpLength] does not resize it. *)
Definition empty_slot (cells : list (option jsstring)) (j : Z) : Prop :=
  0 ≤ j < Z.of_nat (length cells) ∧ truthy (array_get cells j) = false.

(** [j] is the first empty slot of the stored array after position [last]. *)
Definition first_empty_after (cells : list (option jsstring)) (last j : Z) : Prop :=
  last < j ∧ empty_slot cells j ∧ ∀ k, last < k < j → ¬ empty_slot cells k.


(** A handler reported a developer warning. *)
Definition warned (events : list Event) : Prop :=
  ∃ w, ConsoleWarn w ∈ events.

(** The props a caller gets who passes nothing. *)
Definition default_props : Props :=
  {| secureTextEntry := false; keyboardType := kb_default;
     autoCapitalize := cap_none; editable := true; maxLength := None;
     placeholderTextColor := None; error := None; type := type_default;
     otpLength := of_Z 6; otpValue := []; onOtpChange := false;
     otpAutoFocus := true; splitFields := []; splitValues := ∅;
     onSplitChange := false; splitSpacing := 12%Q;
     inputContainerStyle := None; inputStyle := None;
     focusedInputContainerStyle := None; focusedInputStyle := None;
     disabledInputContainerStyle := None; disabledInputStyle := None;
     otpInputContainerStyle := None; otpInputStyle := None;
     otpFocusedInputContainerStyle := None; otpFocusedInputStyle := None;
     splitInputContainerStyle := None; splitInputStyle := None;
     splitFocusedInputContainerStyle := None;
     splitFocusedInputStyle := None |}.

(** An OTP instance of [L] attached cells holding [cells], cell 1 focused. *)
Definition otp_state (L : Z) (cells : list (option jsstring)) : State :=
  {| isFocused := false; otpValues := cells; otpFocusedIndex := 1;
     splitFocusedKey := [];
     otpRefs := (λ i : nat, {| current := Some (Z.of_nat i) |})
                <$> seq 0 (Z.to_nat L) |}.

(** A descriptor with only its key set. *)
Definition plain_field (k : jsstring) : SplitField :=
  {| field_key := k; field_placeholder := None; field_value := None;
     field_flex := None; field_keyboardType := None;
     field_autoCapitalize := None; field_maxLength := None;
     field_secureTextEntry := None; field_editable := None |}.

(** [default_props] with the members the split mode reads replaced. *)
Definition split_props (fields : list SplitField)
    (values : gmap jsstring jsstring) (callback secure : bool)
    (max : option Z) : Props :=
  {| secureTextEntry := secure; keyboardType := kb_default;
     autoCapitalize := cap_none; editable := true; maxLength := max;
     placeholderTextColor := None; error := None; type := type_split;
     otpLength := of_Z 6; otpValue := []; onOtpChange := false;
     otpAutoFocus := true; splitFields := fields; splitValues := values;
     onSplitChange := callback; splitSpacing := 12%Q;
     inputContainerStyle := None; inputStyle := None;
     focusedInputContainerStyle := None; focusedInputStyle := None;
     disabledInputContainerStyle := None; disabledInputStyle := None;
     otpInputContainerStyle := None; otpInputStyle := None;
     otpFocusedInputContainerStyle := None; otpFocusedInputStyle := None;
     splitInputContainerStyle := None; splitInputStyle := None;
     splitFocusedInputContainerStyle := None;
     splitFocusedInputStyle := None |}.

(** The spec's date example: fields [mm] and [dd], [dd] already set. *)
Definition date_props : Props :=
  split_props [plain_field (js "mm"); plain_field (js "dd")]
    {[ js "dd" := js "15" ]} true false None.

(** A field that asks for plain text, in a group that is secure and has a
    maximal length. *)
Definition plain_text_field : SplitField :=
  {| field_key := js "cvv"; field_placeholder := None; field_value := None;
     field_flex := None; field_keyboardType := None;
     field_autoCapitalize := None; field_maxLength := None;
     field_secureTextEntry := Some false; field_editable := None |}.

Definition secure_group_props : Props :=
  split_props [plain_text_field] ∅ false true (Some 4).

(** The order of fragments as the specification words it: the base, the
    state overlays (focused, disabled), the error overlay, and the caller's
    overrides last. *)
Definition spec_style_order (base focusedOverlay disabledOverlay errorOverlay : Style)
    (focused disabled hasError : bool) (overrides : list Style) : list Style :=
  [base]
  ++ (if focused then [focusedOverlay] else [])
  ++ (if disabled then [disabledOverlay] else [])
  ++ (if hasError then [errorOverlay] else [])
  ++ overrides.

(** A caller's override of the border colour. *)
Definition caller_border : Style := [("borderColor", SStr "#000000")]%string.

(** [default_props] with an error message and [inputContainerStyle] set. *)
Definition error_props : Props :=
  {| secureTextEntry := false; keyboardType := kb_default;
     autoCapitalize := cap_none; editable := true; maxLength := None;
     placeholderTextColor := None; error := Some (js "Required");
     type := type_default;
     otpLength := of_Z 6; otpValue := []; onOtpChange := false;
     otpAutoFocus := true; splitFields := []; splitValues := ∅;
     onSplitChange := false; splitSpacing := 12%Q;
     inputContainerStyle := Some caller_border; inputStyle := None;
     focusedInputContainerStyle := None; focusedInputStyle := None;
     disabledInputContainerStyle := None; disabledInputStyle := None;
     otpInputContainerStyle := None; otpInputStyle := None;
     otpFocusedInputContainerStyle := None; otpFocusedInputStyle := None;
     splitInputContainerStyle := None; splitInputStyle := None;
     splitFocusedInputContainerStyle := None;
     splitFocusedInputStyle := None |}.

(** [default_props] in OTP mode with the given length, seed and callback. *)
Definition otp_props (len : jsnum) (seed : jsstring) (callback : bool) : Props :=
  {| secureTextEntry := false; keyboardType := kb_default;
     autoCapitalize := cap_none; editable := true; maxLength := None;
     placeholderTextColor := None; error := None; type := type_otp;
     otpLength := len; otpValue := seed; onOtpChange := callback;
     otpAutoFocus := true; splitFields := []; splitValues := ∅;
     onSplitChange := false; splitSpacing := 12%Q;
     inputContainerStyle := None; inputStyle := None;
     focusedInputContainerStyle := None; focusedInputStyle := None;
     disabledInputContainerStyle := None; disabledInputStyle := None;
     otpInputContainerStyle := None; otpInputStyle := None;
     otpFocusedInputContainerStyle := None; otpFocusedInputStyle := None;
     splitInputContainerStyle := None; splitInputStyle := None;
     splitFocusedInputContainerStyle := None;
     splitFocusedInputStyle := None |}.

(** Four cells that the user has filled with 1, 2, 3, 4. *)
Definition filled_state : State :=
  otp_state 4 [Some (js "1"); Some (js "2"); Some (js "3"); Some (js "4")].

(** ** Sequences of OTP events *)

(** The events the rendered cells deliver to the handlers: [onChangeText],
    [onKeyPress], [onFocus] and [onBlur] of the cell at [index]. *)
Inductive OtpAction :=
| ActChange (text : jsstring) (index : Z)
| ActKeyPress (key : jsstring) (index : Z)
| ActFocus (index : Z)
| ActBlur.

Definition otp_step (L : Z) (cb : bool) (a : OtpAction) (st : State)
  : State * list Event :=
  match a with
  | ActChange text index => handleOtpChange L cb text index st
  | ActKeyPress key index => handleOtpKeyPress L key index st
  | ActFocus index => handleOtpFocus L index st
  | ActBlur => handleOtpBlur st
  end.

(** Events delivered one at a time, each to the handlers of the render that
    followed the previous one, so each sees the state its predecessor left. *)
Fixpoint otp_run (L : Z) (cb : bool) (actions : list OtpAction) (st : State)
  : State * list Event :=
  match actions with
  | [] => (st, [])
  | a :: rest =>
      let '(st1, events1) := otp_step L cb a st in
      let '(st2, events2) := otp_run L cb rest st1 in
      (st2, events1 ++ events2)
  end.

(** Typing the characters of [text] one by one into the cells from [index]
    on, as the auto-advance leads the user. *)
Fixpoint type_from (index : Z) (text : jsstring) : list OtpAction :=
  match text with
  | [] => []
  | c :: rest => ActChange [c] index :: type_from (index + 1) rest
  end.

(** A slot holds a string of at most one code unit. *)
Definition single_cell (v : option jsstring) : bool :=
  match v with
  | Some s => (length s <=? 1)%nat
  | None => false
  end.

(** The cell array has [L] slots, each a string of at most one code unit. *)
Definition cells_wf (L : Z) (cells : list (option jsstring)) : bool :=
  (Z.of_nat (length cells) =? L) && forallb single_cell cells.

(** The focused index is [-1] or the index of a cell. *)
Definition focus_wf (L : Z) (st : State) : bool :=
  (-1 <=? otpFocusedIndex st) && (otpFocusedIndex st <? L).

(** [p] with [splitValues] replaced, as when the caller stores the map its
    callback received and renders again. *)
Definition with_splitValues (values : gmap jsstring jsstring) (p : Props) : Props :=
  {| secureTextEntry := secureTextEntry p; keyboardType := keyboardType p;
     autoCapitalize := autoCapitalize p; editable := editable p;
     maxLength := maxLength p;
     placeholderTextColor := placeholderTextColor p; error := error p;
     type := type p; otpLength := otpLength p; otpValue := otpValue p;
     onOtpChange := onOtpChange p; otpAutoFocus := otpAutoFocus p;
     splitFields := splitFields p; splitValues := values;
     onSplitChange := onSplitChange p; splitSpacing := splitSpacing p;
     inputContainerStyle := inputContainerStyle p;
     inputStyle := inputStyle p;
     focusedInputContainerStyle := focusedInputContainerStyle p;
     focusedInputStyle := focusedInputStyle p;
     disabledInputContainerStyle := disabledInputContainerStyle p;
     disabledInputStyle := disabledInputStyle p;
     otpInputContainerStyle := otpInputContainerStyle p;
     otpInputStyle := otpInputStyle p;
     otpFocusedInputContainerStyle := otpFocusedInputContainerStyle p;
     otpFocusedInputStyle := otpFocusedInputStyle p;
     splitInputContainerStyle := splitInputContainerStyle p;
     splitInputStyle := splitInputStyle p;
     splitFocusedInputContainerStyle := splitFocusedInputContainerStyle p;
     splitFocusedInputStyle := splitFocusedInputStyle p |}.

(** [p] with the group-level [editable] replaced. *)
Definition with_editable (b : bool) (p : Props) : Props :=
  {| secureTextEntry := secureTextEntry p; keyboardType := keyboardType p;
     autoCapitalize := autoCapitalize p; editable := b;
     maxLength := maxLength p;
     placeholderTextColor := placeholderTextColor p; error := error p;
     type := type p; otpLength := otpLength p; otpValue := otpValue p;
     onOtpChange := onOtpChange p; otpAutoFocus := otpAutoFocus p;
     splitFields := splitFields p; splitValues := splitValues p;
     onSplitChange := onSplitChange p; splitSpacing := splitSpacing p;
     inputContainerStyle := inputContainerStyle p;
     inputStyle := inputStyle p;
     focusedInputContainerStyle := focusedInputContainerStyle p;
     focusedInputStyle := focusedInputStyle p;
     disabledInputContainerStyle := disabledInputContainerStyle p;
     disabledInputStyle := disabledInputStyle p;
     otpInputContainerStyle := otpInputContainerStyle p;
     otpInputStyle := otpInputStyle p;
     otpFocusedInputContainerStyle := otpFocusedInputContainerStyle p;
     otpFocusedInputStyle := otpFocusedInputStyle p;
     splitInputContainerStyle := splitInputContainerStyle p;
     splitInputStyle := splitInputStyle p;
     splitFocusedInputContainerStyle := splitFocusedInputContainerStyle p;
     splitFocusedInputStyle := splitFocusedInputStyle p |}.

(** A group whose two fields share the key [mm]. *)
Definition twin_props : Props :=
  split_props [plain_field (js "mm"); plain_field (js "mm")] ∅ true false None.

(** [p] with [otpLength] replaced. *)
Definition with_otpLength (len : jsnum) (p : Props) : Props :=
  {| secureTextEntry := secureTextEntry p; keyboardType := keyboardType p;
     autoCapitalize := autoCapitalize p; editable := editable p;
     maxLength := maxLength p;
     placeholderTextColor := placeholderTextColor p; error := error p;
     type := type p; otpLength := len; otpValue := otpValue p;
     onOtpChange := onOtpChange p; otpAutoFocus := otpAutoFocus p;
     splitFields := splitFields p; splitValues := splitValues p;
     onSplitChange := onSplitChange p; splitSpacing := splitSpacing p;
     inputContainerStyle := inputContainerStyle p;
     inputStyle := inputStyle p;
     focusedInputContainerStyle := focusedInputContainerStyle p;
     focusedInputStyle := focusedInputStyle p;
     disabledInputContainerStyle := disabledInputContainerStyle p;
     disabledInputStyle := disabledInputStyle p;
     otpInputContainerStyle := otpInputContainerStyle p;
     otpInputStyle := otpInputStyle p;
     otpFocusedInputContainerStyle := otpFocusedInputContainerStyle p;
     otpFocusedInputStyle := otpFocusedInputStyle p;
     splitInputContainerStyle := splitInputContainerStyle p;
     splitInputStyle := splitInputStyle p;
     splitFocusedInputContainerStyle := splitFocusedInputContainerStyle p;
     splitFocusedInputStyle := splitFocusedInputStyle p |}.

(** ** [theme/ThemeProvider.tsx] *)

Module ThemeProvider.

Record Colors := {
  primary : string;
  secondary : string;
  error : string;
  background : string;
  text : string;
  placeholder : string;
  border : string;
  focusedBorder : string;
}.

Record Spacing := { small : Q; medium : Q; large : Q }.

Record FontSize := { fs_small : Q; fs_medium : Q; fs_large : Q }.

(** The value a consumer reads.  A member is an [option] because a spread
    can put [undefined] in its place. *)
Record Theme := {
  colors : option Colors;
  spacing : option Spacing;
  borderRadius : option Q;
  fontSize : option FontSize;
}.

(** A member of a [Partial<Theme>] object: the key is absent, or present
    with a value that may be [undefined]. *)
Inductive Member (A : Type) :=
| Absent
| Present (v : option A).
Arguments Absent {A}.
Arguments Present {A} v.

Record PartialTheme := {
  partial_colors : Member Colors;
  partial_spacing : Member Spacing;
  partial_borderRadius : Member Q;
  partial_fontSize : Member FontSize;
}.

Definition defaultTheme : Theme :=
  {| colors := Some {| primary := "#3B82F6"; secondary := "#6B7280";
                       error := "#EF4444"; background := "#FFFFFF";
                       text := "#111827"; placeholder := "#9CA3AF";
                       border := "#D1D5DB"; focusedBorder := "#3B82F6" |};
     spacing := Some {| small := 8; medium := 16; large := 24 |};
     borderRadius := Some 8%Q;
     fontSize := Some {| fs_small := 14; fs_medium := 16; fs_large := 18 |} |}.

(** One key of [{ ...base, ...over }]: a present key of [over] wins. *)
Definition spread_member {A} (base : option A) (over : Member A) : option A :=
  match over with
  | Absent => base
  | Present v => v
  end.

(** [{ ...defaultTheme, ...theme }]; spreading [undefined] adds nothing. *)
Definition mergedTheme (theme : option PartialTheme) : Theme :=
  match theme with
  | None => defaultTheme
  | Some t =>
      {| colors := spread_member (colors defaultTheme) (partial_colors t);
         spacing := spread_member (spacing defaultTheme) (partial_spacing t);
         borderRadius :=
           spread_member (borderRadius defaultTheme) (partial_borderRadius t);
         fontSize := spread_member (fontSize defaultTheme) (partial_fontSize t) |}
  end.

(** [useContext(ThemeContext)] below the given providers, innermost first:
    the value of the nearest provider, or the default passed to
    [createContext] when there is none.  Each provider's value is its own
    [mergedTheme]. *)
Definition useContext (providers : list (option PartialTheme)) : Theme :=
  match providers with
  | [] => defaultTheme
  | theme :: _ => mergedTheme theme
  end.

Inductive ThemeError := MustBeUsedWithinProvider.

(** [useTheme()]: a theme object is truthy, whatever its members. *)
Definition truthy_theme (context : Theme) : bool := true.

Definition useTheme (providers : list (option PartialTheme)) : ThemeError + Theme :=
  let context := useContext providers in
  if negb (truthy_theme context) then inl MustBeUsedWithinProvider
  else inr context.

End ThemeProvider.

(** * Properties *)

(** ** Arrays *)

Lemma array_get_set_eq {A} (arr : list (option A)) (i : Z) (v : A) :
  0 ≤ i → array_get (array_set arr i v) i = Some v.
Proof.
  intros Hi. unfold array_get, array_set.
  destruct (Z.ltb_spec i 0) as [?|_]; [lia|].
  destruct (Z.ltb_spec i (Z.of_nat (length arr))) as [Hlt|Hge].
  - rewrite list_lookup_insert_eq by lia. reflexivity.
  - rewrite lookup_app_r by lia.
    rewrite lookup_app_r by (rewrite length_replicate; lia).
    rewrite length_replicate.
    replace (Z.to_nat i - length arr - (Z.to_nat i - length arr))%nat with 0%nat by lia.
    reflexivity.
Qed.

Lemma array_get_set_ne {A} (arr : list (option A)) (i j : Z) (v : A) :
  i ≠ j → array_get (array_set arr i v) j = array_get arr j.
Proof.
  intros Hne. unfold array_get, array_set.
  destruct (Z.ltb_spec j 0) as [?|Hj]; [reflexivity|].
  destruct (Z.ltb_spec i 0) as [?|Hi]; [reflexivity|].
  destruct (Z.ltb_spec i (Z.of_nat (length arr))) as [Hlt|Hge].
  - rewrite list_lookup_insert_ne by lia. reflexivity.
  - destruct (decide (Z.to_nat j < length arr)%nat) as [Hin|Hout].
    + rewrite lookup_app_l by lia. reflexivity.
    + rewrite (lookup_ge_None_2 arr) by lia.
      rewrite lookup_app_r by lia.
      destruct (decide (Z.to_nat j - length arr < Z.to_nat i - length arr)%nat).
      * rewrite lookup_app_l by (rewrite length_replicate; lia).
        rewrite lookup_replicate_2 by lia. reflexivity.
      * rewrite lookup_app_r by (rewrite length_replicate; lia).
        rewrite length_replicate.
        rewrite lookup_ge_None_2; [reflexivity|simpl; lia].
Qed.

Lemma array_set_length_in_range {A} (arr : list (option A)) (i : Z) (v : A) :
  i < Z.of_nat (length arr) → length (array_set arr i v) = length arr.
Proof.
  intros Hi. unfold array_set.
  destruct (i <? 0); [reflexivity|].
  destruct (Z.ltb_spec i (Z.of_nat (length arr))); [|lia].
  apply length_insert.
Qed.

(** ** The paste loop *)

Section PasteLoop.

Variable L : Z.

Lemma paste_loop_other (rest : jsstring) :
  ∀ i cur vals nf j,
    0 ≤ cur + i →
    ¬ (cur + i ≤ j < Z.min (cur + i + Z.of_nat (length rest)) L) →
    array_get (paste_loop L rest i cur vals nf).1 j = array_get vals j.
Proof.
  induction rest as [|c rest IH]; intros i cur vals nf j Hpos Hj; simpl.
  - reflexivity.
  - destruct (Z.ltb_spec (cur + i) L) as [Hlt|Hge]; [|reflexivity].
    rewrite IH by (simpl in Hj; lia).
    apply array_get_set_ne. simpl in Hj. lia.
Qed.

Lemma paste_loop_written (rest : jsstring) :
  ∀ i cur vals nf (k : nat) c,
    0 ≤ cur + i →
    rest !! k = Some c →
    cur + i + Z.of_nat k < L →
    array_get (paste_loop L rest i cur vals nf).1 (cur + i + Z.of_nat k)
    = Some [c].
Proof.
  induction rest as [|c0 rest IH]; intros i cur vals nf k c Hpos Hk Hlt.
  - discriminate.
  - simpl. destruct (Z.ltb_spec (cur + i) L) as [_|Hge]; [|lia].
    destruct k as [|k]; simpl in Hk.
    + injection Hk as ->.
      rewrite paste_loop_other by lia.
      replace (cur + i + Z.of_nat 0) with (cur + i) by lia.
      apply array_get_set_eq. lia.
    + replace (cur + i + Z.of_nat (S k)) with (cur + (i + 1) + Z.of_nat k) by lia.
      apply IH; [lia|assumption|lia].
Qed.

Lemma paste_loop_last (rest : jsstring) :
  ∀ i cur vals nf,
    rest ≠ [] → cur + i < L →
    (paste_loop L rest i cur vals nf).2
    = Z.min (cur + i + Z.of_nat (length rest)) L - 1.
Proof.
  induction rest as [|c rest IH]; intros i cur vals nf Hne Hlt; [done|].
  simpl. destruct (Z.ltb_spec (cur + i) L) as [_|?]; [|lia].
  destruct rest as [|c' rest].
  - simpl. lia.
  - destruct (Z.ltb_spec (cur + (i + 1)) L) as [Hnext|Hstop].
    + rewrite IH by (done || lia). simpl length. lia.
    + simpl. destruct (Z.ltb_spec (cur + (i + 1)) L); [lia|]. simpl. lia.
Qed.

Lemma paste_loop_length (rest : jsstring) :
  ∀ i cur vals nf,
    0 ≤ cur + i → L ≤ Z.of_nat (length vals) →
    length (paste_loop L rest i cur vals nf).1 = length vals.
Proof.
  induction rest as [|c rest IH]; intros i cur vals nf Hpos Hlen; simpl.
  - reflexivity.
  - destruct (Z.ltb_spec (cur + i) L) as [Hlt|Hge]; [|reflexivity].
    assert (Hset : length (array_set vals (cur + i) [c]) = length vals)
      by (apply array_set_length_in_range; lia).
    rewrite IH by (rewrite ?Hset; lia). exact Hset.
Qed.

End PasteLoop.

Lemma replace_whitespace_no_space (text : jsstring) (c : N) :
  c ∈ replace_whitespace text → isWhiteSpace c = false ∧ c ∈ text.
Proof.
  induction text as [|d text IH]; simpl; intros Hin.
  - inversion Hin.
  - destruct (isWhiteSpace d) eqn:Hd.
    + destruct (IH Hin) as [? ?]. split; [assumption|by right].
    + apply elem_of_cons in Hin as [->|Hin].
      * split; [assumption|by left].
      * destruct (IH Hin) as [? ?]. split; [assumption|by right].
Qed.

Lemma replace_whitespace_keeps (text : jsstring) (c : N) :
  c ∈ text → isWhiteSpace c = false → c ∈ replace_whitespace text.
Proof.
  induction text as [|d text IH]; simpl; intros Hin Hc.
  - inversion Hin.
  - apply elem_of_cons in Hin as [->|Hin].
    + rewrite Hc. by left.
    + destruct (isWhiteSpace d); [auto|right; auto].
Qed.

(** ** Paste distribution *)

Lemma handleOtpPaste_in_range (L : Z) (cb : bool) (st : State) (P : jsstring) (i : Z) :
  0 ≤ i < L →
  replace_whitespace P ≠ [] →
  let loop := paste_loop L (replace_whitespace P) 0 i (otpValues st) i in
  handleOtpPaste L cb P i st
  = (setOtpValues loop.1 st,
     call_onOtpChange cb loop.1 ++ [SetTimeout (paste_focus L loop.1 loop.2) 50]).
Proof.
  intros Hi HS loop. unfold handleOtpPaste.
  destruct (Z.ltb_spec i 0); [lia|].
  destruct (Z.geb_spec i L); [lia|]. simpl.
  destruct (replace_whitespace P) as [|c S] eqn:E; [done|]. simpl truthy_string.
  cbn [negb]. subst loop. destruct (paste_loop L (c :: S) 0 i (otpValues st) i).
  reflexivity.
Qed.

(** C1. A paste of [P] at an in-range cell [i], with [S] the paste without
    its whitespace and [K = |S|]: if [K = 0] nothing happens; otherwise cell
    [i + k] receives the [k]-th character of [S] for every [k < min(K, L - i)],
    every cell outside [i .. min(i + K, L) - 1] reads as before, the array
    does not grow, nothing is logged, and no other state changes.  An input
    longer than one code unit reaches the paste routine through
    [handleOtpChange]. *)
Theorem C1_paste_distribution (L : Z) (cb : bool) (st : State) (P : jsstring) (i : Z) :
  0 ≤ i < L →
  let S := replace_whitespace P in
  let K := Z.of_nat (length S) in
  let r := handleOtpPaste L cb P i st in
  (Z.of_nat (length P) > 1 → handleOtpChange L cb P i st = r)
  ∧ (K = 0 → r = (st, []))
  ∧ (0 < K →
       (∀ k : nat, Z.of_nat k < Z.min K (L - i) →
          ∃ c, S !! k = Some c
               ∧ array_get (otpValues r.1) (i + Z.of_nat k) = Some [c])
       ∧ (∀ j, ¬ (i ≤ j ≤ Z.min (i + K) L - 1) →
            array_get (otpValues r.1) j = array_get (otpValues st) j)
       ∧ (L ≤ Z.of_nat (length (otpValues st)) →
            length (otpValues r.1) = length (otpValues st))
       ∧ ¬ warned r.2
       ∧ r.1 = setOtpValues (otpValues r.1) st).
Proof.
  intros Hi S K r. split; [|split].
  - intros Hlen. unfold handleOtpChange.
    destruct (Z.ltb_spec i 0); [lia|].
    destruct (Z.geb_spec i L); [lia|]. simpl.
    destruct (Z.gtb_spec (Z.of_nat (length P)) 1); [reflexivity|lia].
  - intros HK. subst r. unfold handleOtpPaste.
    destruct (Z.ltb_spec i 0); [lia|].
    destruct (Z.geb_spec i L); [lia|]. simpl.
    fold S. destruct S; [reflexivity|]. subst K. simpl in HK. lia.
  - intros HK.
    assert (HS : S ≠ []) by (intros E; subst K; rewrite E in HK; simpl in HK; lia).
    subst r. rewrite handleOtpPaste_in_range by assumption. cbn [fst snd otpValues setOtpValues].
    fold S. split; [|split; [|split; [|split]]].
    + intros k Hk.
      destruct (lookup_lt_is_Some_2 S k) as [c Hc]; [subst K; lia|].
      exists c. split; [assumption|].
      replace (i + Z.of_nat k) with (i + 0 + Z.of_nat k) by lia.
      apply paste_loop_written; [lia|assumption|lia].
    + intros j Hj. apply paste_loop_other; [lia|]. subst K. lia.
    + intros Hlen. apply paste_loop_length; lia.
    + intros [w Hw]. apply elem_of_app in Hw as [Hw|Hw].
      * unfold call_onOtpChange in Hw. destruct cb.
        -- apply list_elem_of_singleton in Hw. discriminate.
        -- inversion Hw.
      * apply list_elem_of_singleton in Hw. discriminate.
    + reflexivity.
Qed.

(** The theorem at the spec's example: four cells [9,_,_,_], ["5 6"] pasted at
    cell 1. *)
Lemma C1_paste_distribution_witness :
  let st := otp_state 4 [Some (js "9"); Some []; Some []; Some []] in
  otpValues (handleOtpPaste 4 true (js "5 6") 1 st).1
  = [Some (js "9"); Some (js "5"); Some (js "6"); Some []]
  ∧ ¬ warned (handleOtpPaste 4 true (js "5 6") 1 st).2.
Proof.
  split; [reflexivity|].
  refine (proj1 (proj2 (proj2 (proj2
    (proj2 (proj2 (C1_paste_distribution 4 true
       (otp_state 4 [Some (js "9"); Some []; Some []; Some []]) (js "5 6") 1 _)) _))))).
  - lia.
  - simpl. lia.
Defined.

(** ** Focus after a paste *)

Lemma refs_attached_lookup (L : Z) (refs : list RefObject) (j : Z) :
  refs_attached L refs = true → 0 ≤ j < L →
  refs !! Z.to_nat j = Some {| current := Some j |}.
Proof.
  intros Hall Hj. unfold refs_attached in Hall.
  rewrite forallb_forall in Hall.
  specialize (Hall (Z.to_nat j)).
  rewrite bool_decide_eq_true, Z2Nat.id in Hall by lia.
  apply Hall, in_seq. lia.
Qed.

Lemma ref_focus_attached (L : Z) (refs : list RefObject) (j : Z) :
  refs_attached L refs = true → 0 ≤ j < L → ref_focus refs j = [NativeFocus j].
Proof.
  intros Hall Hj. unfold ref_focus.
  destruct (Z.ltb_spec j 0); [lia|].
  by rewrite (refs_attached_lookup L).
Qed.


Lemma array_get_lookup {A} (arr : list (option A)) (k : nat) (v : option A) :
  arr !! k = Some v → array_get arr (Z.of_nat k) = v.
Proof.
  intros Hk. unfold array_get.
  destruct (Z.ltb_spec (Z.of_nat k) 0); [lia|].
  by rewrite Nat2Z.id, Hk.
Qed.

(** [findIndex] returns the first slot that satisfies the predicate, or [-1]
    when no slot does. *)
Lemma findIndex_from_spec {A} (p : A → Z → bool) (arr : list A) :
  ∀ start, 0 ≤ start →
    let r := findIndex_from p arr start in
    (r = -1 ∧ ∀ (k : nat) v, arr !! k = Some v → p v (start + Z.of_nat k) = false)
    ∨ (∃ (k : nat) v,
         r = start + Z.of_nat k ∧ arr !! k = Some v ∧ p v r = true
         ∧ ∀ (k' : nat) v', (k' < k)%nat → arr !! k' = Some v' →
             p v' (start + Z.of_nat k') = false).
Proof.
  induction arr as [|x arr IH]; intros start Hstart; simpl.
  - left. split; [reflexivity|]. intros k v Hk. discriminate.
  - destruct (p x start) eqn:Hx.
    + right. exists 0%nat, x. rewrite Z.add_0_r.
      repeat split; try done. intros k' v' Hlt. lia.
    + destruct (IH (start + 1) ltac:(lia)) as [[Hr Hnone]|(k & v & Hr & Hk & Hp & Hbefore)].
      * left. split; [assumption|].
        intros [|k] v Hk; simpl in Hk.
        -- injection Hk as <-. by rewrite Z.add_0_r.
        -- replace (start + Z.of_nat (S k)) with (start + 1 + Z.of_nat k) by lia.
           eauto.
      * right. exists (S k), v.
        replace (start + Z.of_nat (S k)) with (start + 1 + Z.of_nat k) by lia.
        repeat split; try done.
        intros [|k'] v' Hlt Hk'; simpl in Hk'.
        -- injection Hk' as <-. by rewrite Z.add_0_r.
        -- replace (start + Z.of_nat (S k')) with (start + 1 + Z.of_nat k') by lia.
           apply Hbefore; [lia|assumption].
Qed.

(** The decision of [paste_focus], in terms of the cells. *)
Lemma paste_focus_spec (L : Z) (cells : list (option jsstring)) (last : Z) :
  0 ≤ last →
  (∃ j, first_empty_after cells last j ∧ paste_focus L cells last = TimerFocus j)
  ∨ ((∀ j, last < j → ¬ empty_slot cells j)
     ∧ paste_focus L cells last
       = if last + 1 <? L then TimerFocus (last + 1) else TimerBlur last).
Proof.
  intros Hlast. unfold paste_focus, findIndex.
  set (p := λ (value : option jsstring) (index : Z),
              negb (truthy value) && (index >? last)).
  destruct (findIndex_from_spec p cells 0 ltac:(lia))
    as [[Hr Hnone]|(k & v & Hr & Hk & Hp & Hbefore)].
  - right. rewrite Hr. simpl. split; [|reflexivity].
    intros j Hj [[Hj0 Hjlen] Hempty].
    destruct (lookup_lt_is_Some_2 cells (Z.to_nat j)) as [v Hv]; [lia|].
    specialize (Hnone _ _ Hv). rewrite Z.add_0_l, Z2Nat.id in Hnone by lia.
    apply array_get_lookup in Hv. rewrite Z2Nat.id in Hv by lia.
    unfold p in Hnone. rewrite Hv in Hempty. rewrite Hempty in Hnone. simpl in Hnone.
    destruct (Z.gtb_spec j last); [discriminate|lia].
  - left. rewrite Hr, Z.add_0_l in *.
    exists (Z.of_nat k).
    destruct (Z.eqb_spec (Z.of_nat k) (-1)); [lia|]. simpl. split; [|reflexivity].
    unfold p in Hp. apply andb_true_iff in Hp as [Hfalsy Hgt].
    apply negb_true_iff in Hfalsy.
    destruct (Z.gtb_spec (Z.of_nat k) last); [|discriminate].
    split; [lia|]. split.
    + split; [apply lookup_lt_Some in Hk; lia|].
      by rewrite (array_get_lookup _ _ _ Hk).
    + intros k' Hk' [[Hk0 Hklen] Hempty].
      destruct (lookup_lt_is_Some_2 cells (Z.to_nat k')) as [v' Hv']; [lia|].
      assert (Hlt : (Z.to_nat k' < k)%nat) by lia.
      specialize (Hbefore _ _ Hlt Hv').
      rewrite Z.add_0_l, Z2Nat.id in Hbefore by lia.
      apply array_get_lookup in Hv'. rewrite Z2Nat.id in Hv' by lia.
      unfold p in Hbefore. rewrite Hv' in Hempty. rewrite Hempty in Hbefore.
      simpl in Hbefore. destruct (Z.gtb_spec k' last); [discriminate|lia].
Qed.




(** The spec's other example: six empty cells, ["123456"] pasted at cell 0
    fills them all and the last cell is blurred. *)
Example paste_complete :
  let st := otp_state 6 (replicate 6 (Some [])) in
  handleOtpPaste 6 true (js "123456") 0 st
  = (setOtpValues [Some (js "1"); Some (js "2"); Some (js "3");
                   Some (js "4"); Some (js "5"); Some (js "6")] st,
     [OnOtpChange (js "123456"); SetTimeout (TimerBlur 5) 50]).
Proof. reflexivity. Qed.

(** ** Key presses, single-character changes, out-of-range indices *)

Lemma not_warned_nil : ¬ warned [].
Proof. intros [w Hw]. inversion Hw. Qed.

Lemma call_onOtpChange_no_focus (cb : bool) (cells : list (option jsstring)) (cell : Z) :
  NativeFocus cell ∉ call_onOtpChange cb cells.
Proof.
  unfold call_onOtpChange. destruct cb; intros Hin.
  - apply list_elem_of_singleton in Hin. discriminate.
  - inversion Hin.
Qed.

(** C9. Backspace on an empty cell at an in-range index [i], the refs being
    attached: for [i > 0] the handler focuses cell [i - 1] and changes no
    state, for [i = 0] it does nothing; and whatever the key and the index,
    the handler never focuses a cell below 0. *)
Theorem C9_backspace_moves_back (L : Z) (st : State) (i : Z) :
  0 ≤ i < L →
  truthy (array_get (otpValues st) i) = false →
  refs_attached L (otpRefs st) = true →
  (0 < i → handleOtpKeyPress L (js "Backspace") i st = (st, [NativeFocus (i - 1)]))
  ∧ (i = 0 → handleOtpKeyPress L (js "Backspace") i st = (st, []))
  ∧ (∀ key index cell,
       NativeFocus cell ∈ (handleOtpKeyPress L key index st).2 → 0 ≤ cell).
Proof.
  intros Hi Hempty Hrefs. split; [|split].
  - intros Hpos. unfold handleOtpKeyPress.
    destruct (Z.ltb_spec i 0); [lia|]. destruct (Z.geb_spec i L); [lia|]. simpl orb.
    rewrite bool_decide_eq_true_2 by reflexivity. rewrite Hempty. cbn [negb andb].
    destruct (Z.gtb_spec i 0); [|lia].
    by rewrite (ref_focus_attached L) by (assumption || lia).
  - intros ->. unfold handleOtpKeyPress.
    destruct (Z.geb_spec 0 L); [lia|]. simpl orb.
    rewrite bool_decide_eq_true_2 by reflexivity. rewrite Hempty. reflexivity.
  - intros key index cell. unfold handleOtpKeyPress.
    destruct (Z.ltb_spec index 0); simpl orb.
    { cbn [snd]. intros Hin. apply list_elem_of_singleton in Hin. discriminate. }
    destruct (Z.geb_spec index L); simpl orb.
    { cbn [snd]. intros Hin. apply list_elem_of_singleton in Hin. discriminate. }
    case_bool_decide; [|cbn [snd]; intros Hin; inversion Hin].
    destruct (negb (truthy (array_get (otpValues st) index))); cbn [andb];
      [|cbn [snd]; intros Hin; inversion Hin].
    destruct (Z.gtb_spec index 0); [|cbn [snd]; intros Hin; inversion Hin].
    cbn [snd]. rewrite (ref_focus_attached L) by (assumption || lia).
    intros Hin. apply list_elem_of_singleton in Hin. injection Hin as ->. lia.
Qed.

Lemma C9_backspace_moves_back_witness :
  let st := otp_state 4 [Some (js "9"); Some (js "5"); Some []; Some []] in
  handleOtpKeyPress 4 (js "Backspace") 2 st = (st, [NativeFocus 1]).
Proof.
  apply (C9_backspace_moves_back 4
           (otp_state 4 [Some (js "9"); Some (js "5"); Some []; Some []]) 2);
    [lia|reflexivity|reflexivity|lia].
Defined.

Lemma array_get_nil {A} (j : Z) : array_get (@nil (option A)) j = None.
Proof. unfold array_get. by destruct (j <? 0). Qed.

Lemma array_get_cons_S {A} (v : option A) (cells : list (option A)) (k : nat) :
  array_get (v :: cells) (Z.of_nat (S k)) = array_get cells (Z.of_nat k).
Proof.
  unfold array_get.
  destruct (Z.ltb_spec (Z.of_nat (S k)) 0); [lia|].
  destruct (Z.ltb_spec (Z.of_nat k) 0); [lia|].
  by rewrite !Nat2Z.id.
Qed.

(** Joining the texts of [n] rendered cells gives the join of the stored
    array when the array has at most [n] slots. *)
Lemma concat_rendered (cells : list (option jsstring)) :
  ∀ n, (length cells ≤ n)%nat →
    concat ((λ k : nat, default [] (array_get cells (Z.of_nat k))) <$> seq 0 n)
    = join cells.
Proof.
  induction cells as [|v cells IH]; intros n Hn.
  - change (join []) with (@nil N). clear Hn. generalize 0%nat as start.
    induction n as [|n IHn]; intros start; [reflexivity|].
    simpl. rewrite array_get_nil. simpl. apply IHn.
  - destruct n as [|n]; [simpl in Hn; lia|].
    change (seq 0 (S n)) with (0%nat :: seq 1 n).
    rewrite <- fmap_S_seq, fmap_cons, <- list_fmap_compose.
    change (join (v :: cells)) with (default [] v ++ join cells).
    rewrite <- (IH n) by (simpl in Hn; lia).
    change (concat (?x :: ?l)) with (x ++ concat l).
    apply (f_equal (app (default [] v))). f_equal.
    apply list_fmap_ext. intros k x _. simpl.
    by rewrite array_get_cons_S.
Qed.

Lemma array_set_length_le {A} (arr : list (option A)) (i L : Z) (v : A) :
  i < L → Z.of_nat (length arr) ≤ L →
  Z.of_nat (length (array_set arr i v)) ≤ L.
Proof.
  intros Hi Hlen. unfold array_set.
  destruct (Z.ltb_spec i 0); [assumption|].
  destruct (Z.ltb_spec i (Z.of_nat (length arr))).
  - by rewrite length_insert.
  - rewrite !length_app, length_replicate. simpl. lia.
Qed.

(** C10, as the spec states it, fails on the aggregate where the stored cell
    array is longer than the configured length, as it is after the length
    was lowered from 6 to 4 without a seed: deleting cell 0 of the cells
    1, 2, 3, 4, 5, 6 calls the callback with ["23456"], while the four cells
    on screen then read ["234"]. *)
Lemma C10_stale_slots_counterexample :
  let st := otp_state 4 [Some (js "1"); Some (js "2"); Some (js "3");
                         Some (js "4"); Some (js "5"); Some (js "6")] in
  let r := handleOtpChange 4 true [] 0 st in
  r.2 = [OnOtpChange (js "23456")]
  ∧ cell_value <$> renderOtpInputs default_props 4 r.1
    = [[]; js "2"; js "3"; js "4"]
  ∧ concat (cell_value <$> renderOtpInputs default_props 4 r.1) = js "234".
Proof. split; [reflexivity|split; reflexivity]. Qed.

(** C10, amended.  Deleting the character of an in-range cell [i] (the
    change handler called with the empty string) leaves a state in which
    cell [i] reads the empty string, every other cell reads as before, and
    the focused index, the refs and the other state are unchanged; the
    callback, when supplied, is called exactly once, with the join of all
    slots of the stored cell array, which is the aggregate of the [L] cells
    on screen whenever the array has at most [L] slots; and nothing asks for
    a focus change.  For any input, the change handler focuses another cell
    at once only if the input is a single character and [i] is below the
    last index; then the cell reads that character and, the refs being
    attached, cell [i + 1] is focused. *)
Theorem C10_delete_keeps_focus (L : Z) (cb : bool) (st : State) (i : Z) :
  0 ≤ i < L →
  let r := handleOtpChange L cb [] i st in
  array_get (otpValues r.1) i = Some []
  ∧ (∀ j, j ≠ i → array_get (otpValues r.1) j = array_get (otpValues st) j)
  ∧ (otpFocusedIndex r.1 = otpFocusedIndex st
     ∧ otpRefs r.1 = otpRefs st
     ∧ isFocused r.1 = isFocused st
     ∧ splitFocusedKey r.1 = splitFocusedKey st)
  ∧ r.2 = (if cb then [OnOtpChange (join (otpValues r.1))] else [])
  ∧ (Z.of_nat (length (otpValues st)) ≤ L →
       ∀ p, join (otpValues r.1)
            = concat (cell_value <$> renderOtpInputs p L r.1))
  ∧ (∀ text cell,
       NativeFocus cell ∈ (handleOtpChange L cb text i st).2 →
       length text = 1%nat ∧ i < L - 1)
  ∧ (∀ c, i < L - 1 → refs_attached L (otpRefs st) = true →
       let r' := handleOtpChange L cb [c] i st in
       array_get (otpValues r'.1) i = Some [c]
       ∧ r'.2 = call_onOtpChange cb (otpValues r'.1) ++ [NativeFocus (i + 1)]).
Proof.
  intros Hi r.
  assert (Hevents : ∀ text cell,
             NativeFocus cell ∈ (handleOtpChange L cb text i st).2 →
             Z.of_nat (length text) ≤ 1
             ∧ NativeFocus cell
               ∈ (if truthy_string text && (i <? L - 1)
                  then ref_focus (otpRefs st) (i + 1) else [])).
  { intros text cell. unfold handleOtpChange.
    destruct (Z.ltb_spec i 0); [lia|]. destruct (Z.geb_spec i L); [lia|]. simpl orb.
    cbv iota. destruct (Z.gtb_spec (Z.of_nat (length text)) 1) as [Hlong|Hshort].
    - destruct (decide (replace_whitespace text = [])) as [E|E].
      + unfold handleOtpPaste.
        destruct (Z.ltb_spec i 0); [lia|]. destruct (Z.geb_spec i L); [lia|].
        simpl orb. cbv iota. rewrite E. simpl. intros Hin. inversion Hin.
      + rewrite handleOtpPaste_in_range by assumption. cbn [snd].
        intros Hin. apply elem_of_app in Hin as [Hin|Hin].
        * by apply call_onOtpChange_no_focus in Hin.
        * apply list_elem_of_singleton in Hin. discriminate.
    - cbn [snd]. intros Hin. apply elem_of_app in Hin as [Hin|Hin].
      + by apply call_onOtpChange_no_focus in Hin.
      + split; [lia|assumption]. }
  assert (Hsingle : ∀ text, (length text ≤ 1)%nat →
            handleOtpChange L cb text i st
            = (setOtpValues (array_set (otpValues st) i text) st,
               call_onOtpChange cb (array_set (otpValues st) i text)
               ++ (if truthy_string text && (i <? L - 1)
                   then ref_focus (otpRefs st) (i + 1) else []))).
  { intros text Hlen. unfold handleOtpChange.
    destruct (Z.ltb_spec i 0); [lia|]. destruct (Z.geb_spec i L); [lia|].
    cbn [orb]. by destruct (Z.gtb_spec (Z.of_nat (length text)) 1); [lia|]. }
  assert (Hvalues : otpValues r.1 = array_set (otpValues st) i []).
  { subst r. by rewrite Hsingle by (simpl; lia). }
  split; [|split; [|split; [|split; [|split; [|split]]]]].
  - rewrite Hvalues. apply array_get_set_eq. lia.
  - intros j Hj. rewrite Hvalues. apply array_get_set_ne. congruence.
  - subst r. by rewrite Hsingle by (simpl; lia).
  - rewrite Hvalues. subst r. rewrite Hsingle by (simpl; lia).
    cbn [snd truthy_string andb]. unfold call_onOtpChange. by rewrite app_nil_r.
  - intros Hlen p. unfold renderOtpInputs. rewrite <- list_fmap_compose.
    rewrite Hvalues.
    rewrite <- (concat_rendered (array_set (otpValues st) i []) (Z.to_nat L)).
    + f_equal.
    + pose proof (array_set_length_le (otpValues st) i L [] ltac:(lia) Hlen). lia.
  - intros text cell Hin. destruct (Hevents text cell Hin) as [Hshort Hfocus].
    destruct text as [|c [|c' text]]; simpl in Hshort, Hfocus.
    + inversion Hfocus.
    + split; [reflexivity|].
      destruct (Z.ltb_spec i (L - 1)); [assumption|inversion Hfocus].
    + lia.
  - intros c Hnext Hrefs r'. subst r'. rewrite Hsingle by (simpl; lia).
    cbn [fst snd otpValues setOtpValues truthy_string andb].
    split; [apply array_get_set_eq; lia|].
    destruct (Z.ltb_spec i (L - 1)); [|lia].
    by rewrite (ref_focus_attached L) by (assumption || lia).
Qed.

Lemma C10_delete_keeps_focus_witness :
  let st := otp_state 4 [Some (js "9"); Some (js "5"); Some []; Some []] in
  let r := handleOtpChange 4 true [] 1 st in
  array_get (otpValues r.1) 1 = Some []
  ∧ r.2 = [OnOtpChange (join (otpValues r.1))]
  ∧ join (otpValues r.1) = js "9".
Proof.
  pose proof (C10_delete_keeps_focus 4 true
                (otp_state 4 [Some (js "9"); Some (js "5"); Some []; Some []]) 1
                ltac:(lia)) as (Hcell & _ & _ & Hevents & _).
  split; [exact Hcell|]. split; [exact Hevents|reflexivity].
Defined.

(** C7, as the spec states it, fails for the focus handler: given the index
    [-1] on four cells it is a no-op, but it reports no warning. *)
Lemma C7_focus_reports_nothing :
  let st := otp_state 4 [Some (js "9"); Some []; Some []; Some []] in
  (handleOtpFocus 4 (-1) st).1 = st
  ∧ ¬ warned (handleOtpFocus 4 (-1) st).2.
Proof. split; [reflexivity|apply not_warned_nil]. Qed.

(** C7, amended.  Given an index outside [0, L - 1], the change, paste and
    key-press handlers leave the whole state (cell values and focused index
    included) unchanged and report exactly one developer warning; the focus
    handler leaves the state unchanged too and reports nothing. *)
Theorem C7_out_of_range_index (L : Z) (cb : bool) (st : State)
    (text key : jsstring) (index : Z) :
  ¬ (0 ≤ index ≤ L - 1) →
  handleOtpChange L cb text index st
  = (st, [ConsoleWarn (WarnInvalidOtpIndex index (L - 1))])
  ∧ handleOtpPaste L cb text index st
    = (st, [ConsoleWarn (WarnInvalidPasteIndex index)])
  ∧ handleOtpKeyPress L key index st
    = (st, [ConsoleWarn (WarnInvalidKeyPressIndex index)])
  ∧ handleOtpFocus L index st = (st, []).
Proof.
  intros Hout.
  assert (Hguard : (index <? 0) || (index >=? L) = true).
  { destruct (Z.ltb_spec index 0); [reflexivity|].
    destruct (Z.geb_spec index L); [reflexivity|lia]. }
  unfold handleOtpChange, handleOtpPaste, handleOtpKeyPress, handleOtpFocus.
  rewrite Hguard. split; [|split; [|split]]; try reflexivity.
  destruct (Z.geb_spec index 0); [|reflexivity].
  destruct (Z.ltb_spec index L); [lia|reflexivity].
Qed.

Lemma C7_out_of_range_index_witness :
  let st := otp_state 4 [Some (js "9"); Some []; Some []; Some []] in
  handleOtpChange 4 true (js "7") 4 st
  = (st, [ConsoleWarn (WarnInvalidOtpIndex 4 3)])
  ∧ handleOtpFocus 4 4 st = (st, []).
Proof.
  pose proof (C7_out_of_range_index 4 true
                (otp_state 4 [Some (js "9"); Some []; Some []; Some []])
                (js "7") (js "Backspace") 4 ltac:(lia)) as (Hchange & _ & _ & Hfocus).
  split; [exact Hchange|exact Hfocus].
Defined.

(** ** Split edits *)

Lemma find_key_Some (fields : list SplitField) (k : jsstring) :
  k ∈ field_key <$> fields →
  ∃ field, List.find (λ field, bool_decide (field_key field = k)) fields = Some field.
Proof.
  induction fields as [|f fields IH]; simpl; intros Hin.
  - inversion Hin.
  - case_bool_decide as Hf; [eauto|].
    apply elem_of_cons in Hin as [Hin|Hin]; [congruence|auto].
Qed.

Lemma find_key_None (fields : list SplitField) (k : jsstring) :
  k ∉ field_key <$> fields →
  List.find (λ field, bool_decide (field_key field = k)) fields = None.
Proof.
  induction fields as [|f fields IH]; simpl; intros Hnotin; [reflexivity|].
  apply not_elem_of_cons in Hnotin as [Hne Hnotin].
  case_bool_decide; [congruence|auto].
Qed.

(** C5. An edit of a key [k] of the configured descriptors, the callback
    being supplied: the handler changes no state and calls the callback
    exactly once, with the map that is [splitValues] overridden at [k] by the
    new text (so [k] maps to the text and every other key keeps its value),
    with [k], and with the text.  An edit of a key that no descriptor has:
    no callback, no state change, one developer warning. *)
Theorem C5_split_change (p : Props) (st : State) (k text : jsstring) :
  onSplitChange p = true →
  (k ∈ field_key <$> splitFields p →
     ∃ values,
       handleSplitChange p k text st = (st, [OnSplitChange values k text])
       ∧ values = <[k := text]> (splitValues p)
       ∧ values !! k = Some text
       ∧ ∀ k', k' ≠ k → values !! k' = splitValues p !! k')
  ∧ (k ∉ field_key <$> splitFields p →
       handleSplitChange p k text st
       = (st, [ConsoleWarn (WarnInvalidSplitKey k)])).
Proof.
  intros Hcb. split.
  - intros Hin. exists (<[k := text]> (splitValues p)).
    unfold handleSplitChange.
    destruct (find_key_Some _ _ Hin) as [field ->]. rewrite Hcb.
    split; [reflexivity|]. split; [reflexivity|]. split.
    + apply lookup_insert_eq.
    + intros k' Hne. by apply lookup_insert_ne.
  - intros Hnotin. unfold handleSplitChange.
    by rewrite find_key_None.
Qed.

(** The spec's example: fields [mm] and [dd], the map [{dd: "15"}], and the
    edit of [mm] to ["07"]. *)
Lemma C5_split_change_witness :
  ∃ values,
    handleSplitChange date_props (js "mm") (js "07") (otp_state 0 [])
    = (otp_state 0 [], [OnSplitChange values (js "mm") (js "07")])
    ∧ values !! js "mm" = Some (js "07")
    ∧ values !! js "dd" = Some (js "15").
Proof.
  destruct (proj1 (C5_split_change date_props (otp_state 0 []) (js "mm") (js "07")
                     eq_refl))
    as (values & Hcall & _ & Hk & Hother).
  - simpl. left.
  - exists values. split; [exact Hcall|]. split; [exact Hk|].
    rewrite Hother by discriminate. reflexivity.
Defined.

(** ** Per-field overrides of the split inputs *)

(** C8, as the spec states it, fails twice on a group with
    [secureTextEntry] and [maxLength = 4] whose only field sets
    [secureTextEntry: false] and no [maxLength]: the input is rendered
    secure although the descriptor says otherwise, and without a maximal
    length although the group has one. *)
Lemma C8_secure_and_maxLength_counterexample :
  ∃ view,
    renderSplitInputs secure_group_props (otp_state 0 []) = [view]
    ∧ field_secureTextEntry plain_text_field = Some false
    ∧ input_secureTextEntry view = true
    ∧ field_maxLength plain_text_field = None
    ∧ maxLength secure_group_props = Some 4
    ∧ input_maxLength view = None.
Proof. eexists. split; [reflexivity|]. repeat split. Qed.

(** C8, amended.  For every field descriptor of the group, the rendered
    input takes the keyboard type and the capitalization of the descriptor
    when set and of the group when unset; the editable flag of the
    descriptor when set, true or false, and of the group when unset; it is
    secure exactly when the descriptor's flag is true or the group's is;
    and its maximal length is the descriptor's alone, unset when the
    descriptor sets none. *)
Theorem C8_split_field_overrides (p : Props) (st : State) (i : nat)
    (field : SplitField) :
  splitFields p !! i = Some field →
  ∃ view,
    renderSplitInputs p st !! i = Some view
    ∧ input_key view = field_key field
    ∧ input_keyboardType view
      = match field_keyboardType field with
        | Some k => k
        | None => keyboardType p
        end
    ∧ input_autoCapitalize view
      = match field_autoCapitalize field with
        | Some c => c
        | None => autoCapitalize p
        end
    ∧ input_editable view
      = match field_editable field with
        | Some b => b
        | None => editable p
        end
    ∧ input_secureTextEntry view
      = match field_secureTextEntry field with
        | Some true => true
        | Some false | None => secureTextEntry p
        end
    ∧ input_maxLength view = field_maxLength field.
Proof.
  intros Hfield. unfold renderSplitInputs.
  rewrite list_lookup_imap, Hfield. simpl.
  eexists. split; [reflexivity|]. simpl.
  split; [|split; [|split; [|split; [|split]]]]; reflexivity.
Qed.

Lemma C8_split_field_overrides_witness :
  ∃ view,
    renderSplitInputs date_props (otp_state 0 []) !! 1%nat = Some view
    ∧ input_key view = js "dd"
    ∧ input_keyboardType view = kb_default
    ∧ input_secureTextEntry view = false
    ∧ input_maxLength view = None.
Proof.
  destruct (C8_split_field_overrides date_props (otp_state 0 []) 1
              (plain_field (js "dd")) eq_refl)
    as (view & Hview & Hkey & Hkb & _ & _ & Hsecure & Hmax).
  exists view. repeat split; assumption.
Defined.

(** ** Style resolution *)

(** C6, as the spec states it, fails on the order: with an error shown and
    [inputContainerStyle] set, the caller's override is the second fragment
    and the error overlay is the last one, so the override does not come
    last as the worded order has it. *)
Lemma C6_override_before_error_counterexample :
  let st := otp_state 0 [] in
  getInputContainerStyle error_props st
  = [styles.inputContainer; caller_border; styles.errorInputContainer]
  ∧ getInputContainerStyle error_props st
    ≠ spec_style_order styles.inputContainer styles.focusedInputContainer
        styles.disabledInputContainer styles.errorInputContainer
        (isFocused st) (negb (editable error_props))
        (truthy (error error_props)) [caller_border].
Proof. split; [reflexivity|discriminate]. Qed.

(** C6, amended.  The container style functions return, in this order: the
    base fragment; the caller's base override (the empty style when unset);
    when the cell or field is focused, the focused overlay and then the
    caller's focused override; when the input is not editable, the disabled
    overlay and then the caller's disabled override; when an error is
    present, the error overlay, which is last.  The result is determined by
    the focus state, the editable flag, the presence of an error and the
    overrides alone: two evaluations that agree on these return the same
    list. *)
Theorem C6_style_resolution (p : Props) (st : State) (index : Z) :
  getOtpInputContainerStyle p st index
  = [styles.otpInputContainer; or_empty (otpInputContainerStyle p)]
    ++ (if otpFocusedIndex st =? index
        then styles.otpFocusedInputContainer
             :: option_list (otpFocusedInputContainerStyle p)
        else [])
    ++ (if editable p then []
        else styles.disabledInputContainer
             :: option_list (disabledInputContainerStyle p))
    ++ (if truthy (error p) then [styles.errorInputContainer] else [])
  ∧ getInputContainerStyle p st
    = [styles.inputContainer; or_empty (inputContainerStyle p)]
      ++ (if isFocused st
          then styles.focusedInputContainer
               :: option_list (focusedInputContainerStyle p)
          else [])
      ++ (if editable p then []
          else styles.disabledInputContainer
               :: option_list (disabledInputContainerStyle p))
      ++ (if truthy (error p) then [styles.errorInputContainer] else [])
  ∧ (∀ p' st',
       bool_decide (otpFocusedIndex st' = index)
       = bool_decide (otpFocusedIndex st = index) →
       isFocused st' = isFocused st →
       editable p' = editable p →
       truthy (error p') = truthy (error p) →
       otpInputContainerStyle p' = otpInputContainerStyle p →
       otpFocusedInputContainerStyle p' = otpFocusedInputContainerStyle p →
       inputContainerStyle p' = inputContainerStyle p →
       focusedInputContainerStyle p' = focusedInputContainerStyle p →
       disabledInputContainerStyle p' = disabledInputContainerStyle p →
       getOtpInputContainerStyle p' st' index = getOtpInputContainerStyle p st index
       ∧ getInputContainerStyle p' st' = getInputContainerStyle p st).
Proof.
  split; [|split].
  - unfold getOtpInputContainerStyle, push_if_set, push, filter_Boolean.
    destruct (otpFocusedIndex st =? index), (editable p), (truthy (error p)),
      (otpFocusedInputContainerStyle p), (disabledInputContainerStyle p);
      reflexivity.
  - unfold getInputContainerStyle, push_if_set, push, filter_Boolean.
    destruct (isFocused st), (editable p), (truthy (error p)),
      (focusedInputContainerStyle p), (disabledInputContainerStyle p);
      reflexivity.
  - intros p' st' Hindex Hfocused Heditable Herror Hotp HotpFocused Hbase
      Hfoc Hdis.
    assert (Hindex' : (otpFocusedIndex st' =? index) = (otpFocusedIndex st =? index)).
    { destruct (Z.eqb_spec (otpFocusedIndex st') index),
        (Z.eqb_spec (otpFocusedIndex st) index); try reflexivity.
      - rewrite bool_decide_eq_true_2, bool_decide_eq_false_2 in Hindex by done.
        discriminate.
      - rewrite bool_decide_eq_false_2, bool_decide_eq_true_2 in Hindex by done.
        discriminate. }
    unfold getOtpInputContainerStyle, getInputContainerStyle.
    by rewrite Hindex', Hfocused, Heditable, Herror, Hotp, HotpFocused, Hbase,
      Hfoc, Hdis.
Qed.

Lemma C6_style_resolution_witness :
  getOtpInputContainerStyle default_props (otp_state 4 []) 1
  = [styles.otpInputContainer; []; styles.otpFocusedInputContainer].
Proof.
  exact (proj1 (C6_style_resolution default_props (otp_state 4 []) 1)).
Defined.

(** ** Changing the configured length *)

Lemma for_range_append {A} (x : A) (start stop : nat) (l : list A) :
  for_range start stop (λ _ acc, acc ++ [x]) l = l ++ replicate (stop - start) x.
Proof.
  unfold for_range. generalize (stop - start)%nat as n. intros n.
  revert start l. induction n as [|n IH]; intros start l; simpl.
  - by rewrite app_nil_r.
  - rewrite IH, <- app_assoc. reflexivity.
Qed.

Lemma for_range_seed (seed : jsstring) (n m : nat) :
  (m ≤ length seed)%nat → (m ≤ n)%nat →
  for_range 0 m
    (λ i newValues,
       array_set newValues (Z.of_nat i)
         (match seed !! i with Some c => [c] | None => [] end))
    (replicate n (Some []))
  = ((λ c, Some [c]) <$> take m seed) ++ replicate (n - m) (Some []).
Proof.
  unfold for_range. rewrite Nat.sub_0_r.
  induction m as [|m IH]; intros Hseed Hn.
  - simpl. by rewrite Nat.sub_0_r.
  - rewrite seq_S, foldl_app, IH by lia. simpl.
    destruct (lookup_lt_is_Some_2 seed m) as [c Hc]; [lia|]. rewrite Hc.
    rewrite (take_S_r _ _ _ Hc), fmap_app, <- app_assoc. simpl.
    unfold array_set. destruct (Z.ltb_spec (Z.of_nat m) 0); [lia|].
    assert (Hlen : length ((λ c0 : N, Some [c0]) <$> take m seed) = m)
      by (rewrite length_fmap, length_take; lia).
    rewrite length_app, Hlen, length_replicate.
    destruct (Z.ltb_spec (Z.of_nat m) (Z.of_nat (m + (n - m)))); [|lia].
    rewrite Nat2Z.id, insert_app_r_alt, Hlen, Nat.sub_diag by lia.
    replace (n - m)%nat with (S (n - S m)) by lia. reflexivity.
Qed.

(** C4, as the spec states it, fails: when the length changes from 4 to 6 on
    cells holding 1, 2, 3, 4, a configured seed ["9"] replaces the cells by
    the seed and empty strings, so cell 1, below the new length, loses its
    value; and without a seed the cell array keeps its four slots. *)
Lemma C4_resize_counterexample :
  array_get (otpValues filled_state) 1 = Some (js "2")
  ∧ otpValues (otp_init_effect (otp_props (of_Z 6) (js "9") true) filled_state)
    = [Some (js "9"); Some []; Some []; Some []; Some []; Some []]
  ∧ length (otpValues (otp_init_effect (otp_props (of_Z 6) [] true) filled_state))
    = 4%nat.
Proof. split; [reflexivity|split; reflexivity]. Qed.

(** C4, amended.  When a mounted OTP instance is rendered with a new
    configured length [L], the render completes and the OTP effect runs:
    the array of cell refs is resized to [L], the refs below the new length
    being kept and the new slots getting fresh refs; the focus state is
    kept; the cell array becomes the seed's characters followed by empty
    strings up to [L] when the seed is not empty and no longer than [L]; in
    every other case the cell array is left as it is, and the [L] rendered
    cells show its values at the indices below [L] and the empty string
    where it has none. *)
Theorem C4_length_change (p : Props) (st : State) (L : Z) :
  type p = type_otp →
  array_length (otpLength p) = Some L →
  let st' := otp_init_effect p st in
  let n := Z.to_nat L in
  update p st
  = Normal (st', validation_effect p, OtpView (renderOtpInputs p L st))
  ∧ otpRefs st' = take n (otpRefs st) ++ replicate (n - length (otpRefs st)) createRef
  ∧ length (otpRefs st') = n
  ∧ otpFocusedIndex st' = otpFocusedIndex st
  ∧ (otpValue p ≠ [] → Z.of_nat (length (otpValue p)) ≤ L →
       otpValues st'
       = ((λ c, Some [c]) <$> otpValue p)
         ++ replicate (n - length (otpValue p)) (Some []))
  ∧ (otpValue p = [] ∨ L < Z.of_nat (length (otpValue p)) →
       otpValues st' = otpValues st
       ∧ cell_value <$> renderOtpInputs p L st'
         = (λ i : nat, default [] (array_get (otpValues st) (Z.of_nat i)))
           <$> seq 0 n).
Proof.
  intros Htype HL st' n.
  assert (Hint : to_int (otpLength p) = L) by (unfold to_int; by rewrite HL).
  assert (Hrefs : otpRefs st'
                  = take n (otpRefs st) ++ replicate (n - length (otpRefs st)) createRef).
  { subst st'. unfold otp_init_effect. rewrite Htype, Hint. fold n.
    rewrite for_range_append, length_take.
    replace (n - n `min` length (otpRefs st))%nat
      with (n - length (otpRefs st))%nat by lia.
    by destruct (truthy_string (otpValue p) && _). }
  split; [|split; [exact Hrefs|split; [|split; [|split]]]].
  - unfold update, render, new_Array_fill, bind. by rewrite HL, Htype, Hint.
  - rewrite Hrefs, length_app, length_take, length_replicate. lia.
  - subst st'. unfold otp_init_effect. rewrite Htype.
    by destruct (truthy_string (otpValue p) && _).
  - intros Hseed Hfits. subst st'. unfold otp_init_effect. rewrite Htype, Hint.
    fold n. destruct (otpValue p) as [|c seed] eqn:E; [done|]. cbn [truthy_string andb].
    destruct (Z.leb_spec (Z.of_nat (length (c :: seed))) L); [|lia].
    cbn [otpValues setOtpValues].
    rewrite for_range_seed by lia. by rewrite firstn_all.
  - intros Hskip.
    assert (Hvalues : otpValues st' = otpValues st).
    { subst st'. unfold otp_init_effect. rewrite Htype, Hint.
      destruct Hskip as [->|Hlong]; [reflexivity|].
      destruct (Z.leb_spec (Z.of_nat (length (otpValue p))) L); [lia|].
      by rewrite andb_false_r. }
    split; [exact Hvalues|].
    unfold renderOtpInputs. rewrite <- list_fmap_compose. fold n.
    apply list_fmap_ext. intros i x _. simpl. by rewrite Hvalues.
Qed.

Lemma C4_length_change_witness :
  otpValues (otp_init_effect (otp_props (of_Z 6) [] true) filled_state)
  = otpValues filled_state
  ∧ cell_value <$> renderOtpInputs (otp_props (of_Z 6) [] true) 6
                     (otp_init_effect (otp_props (of_Z 6) [] true) filled_state)
    = [js "1"; js "2"; js "3"; js "4"; []; []].
Proof.
  pose proof (C4_length_change (otp_props (of_Z 6) [] true) filled_state 6
                eq_refl eq_refl) as (_ & _ & _ & _ & _ & Hkeep).
  destruct (Hkeep (or_introl eq_refl)) as [Hvalues Hcells].
  split; [exact Hvalues|]. rewrite Hcells. reflexivity.
Defined.

(** ** Malformed configuration *)

(** A render, and with it the mount, throws exactly when [otpLength] is not
    an array length, in every mode. *)
Lemma mount_throws_iff (p : Props) :
  mount p = Throw RangeError ↔ array_length (otpLength p) = None.
Proof.
  unfold mount, initial_state, render, new_Array_fill, bind.
  destruct (array_length (otpLength p)); split; intros H; done.
Qed.

(** With an array length the mount completes and the diagnostics of the
    validation effect are logged. *)
Lemma mount_completes (p : Props) (L : Z) :
  array_length (otpLength p) = Some L →
  ∃ st view,
    mount p = Normal (st, validation_effect p ++ auto_focus_effect p st, view).
Proof.
  intros HL. unfold mount, initial_state, render, new_Array_fill, bind.
  rewrite HL. eauto.
Qed.

Lemma validation_warns_otpLength (p : Props) :
  type p = type_otp → validateOtpLength (otpLength p) = false →
  ConsoleWarn (WarnOtpLength (otpLength p)) ∈ validation_effect p.
Proof.
  intros Htype Hbad. unfold validation_effect. rewrite Htype, Hbad. simpl.
  rewrite app_nil_r. by left.
Qed.

Lemma validation_warns_otpValue (p : Props) :
  type p = type_otp → otpValue p ≠ [] →
  validateOtpValue (otpValue p) (otpLength p) = false →
  ConsoleWarn (WarnOtpValueTooLong (otpLength p) (otpValue p)) ∈ validation_effect p.
Proof.
  intros Htype Hseed Hbad. unfold validation_effect. rewrite Htype, Hbad.
  destruct (otpValue p); [done|]. simpl. rewrite app_nil_r.
  apply elem_of_app. right. by left.
Qed.

Lemma validation_warns_splitFields (p : Props) :
  type p = type_split → (validateSplitFields (splitFields p)).1 = false →
  ConsoleWarn (WarnSplitFields (splitFields p)) ∈ validation_effect p.
Proof.
  intros Htype Hbad. unfold validation_effect. rewrite Htype. simpl.
  destruct (validateSplitFields (splitFields p)) as [valid logged].
  simpl in Hbad. subst valid. simpl. apply elem_of_app. right. by left.
Qed.

(** Zero and lengths above 20 are diagnosed and rendered. *)
Example mount_length_zero :
  (∃ st view,
     mount (otp_props (of_Z 0) [] false)
     = Normal (st, [ConsoleWarn (WarnOtpLength (of_Z 0))], view))
  ∧ (∃ st view,
       mount (otp_props (of_Z 21) [] false)
       = Normal (st, [ConsoleWarn (WarnOtpLength (of_Z 21));
                      SetTimeout (TimerFocus 0) 100], view)).
Proof. split; eexists _, _; reflexivity. Qed.

(** C3.  The claim promises that no malformed configuration raises an
    exception.  A negative [otpLength] is diagnosed as invalid by
    [validateOtpLength], yet mounting with it throws a [RangeError] from
    [new Array(otpLength)] in the [useState] argument, before any effect can
    log; the same holds for a length that is not an integer. *)
Theorem C3_negative_otpLength_throws :
  validateOtpLength (of_Z (-1)) = false
  ∧ mount (otp_props (of_Z (-1)) [] false) = Throw RangeError
  ∧ validateOtpLength (Finite (5 # 2)) = false
  ∧ mount (otp_props (Finite (5 # 2)) [] false) = Throw RangeError.
Proof. split; [|split; [|split]]; reflexivity. Qed.

(** * Further properties of the component *)

(** ** Validation *)

Lemma num_le_of_Z (a b : Z) : num_le (of_Z a) (of_Z b) = (a <=? b).
Proof.
  unfold num_le, of_Z, Qle_bool. simpl. by rewrite !Z.mul_1_r.
Qed.

Lemma isInteger_of_Z (n : Z) : isInteger (of_Z n) = true.
Proof. unfold isInteger, of_Z. simpl. by rewrite Z.rem_1_r. Qed.

Lemma array_length_of_Z (n : Z) :
  0 ≤ n ≤ 2 ^ 32 - 1 → array_length (of_Z n) = Some n.
Proof.
  intros Hn. unfold array_length. rewrite isInteger_of_Z.
  unfold of_Z, Qle_bool. cbn [Qnum Qden inject_Z].
  rewrite !Z.mul_1_r, Z.div_1_r. change (0 * 1) with 0.
  destruct (Z.leb_spec 0 n); [|lia].
  destruct (Z.leb_spec n (2 ^ 32 - 1)); [reflexivity|lia].
Qed.

Lemma array_length_inv (x : jsnum) (L : Z) :
  array_length x = Some L →
  ∃ den, x = Finite (L * Z.pos den # den) ∧ 0 ≤ L ≤ 2 ^ 32 - 1.
Proof.
  destruct x as [| |[num den]]; try discriminate.
  unfold array_length, isInteger, Qle_bool. cbn [Qnum Qden inject_Z].
  destruct (Z.eqb_spec (Z.rem num (Z.pos den)) 0) as [Hrem|]; [|discriminate].
  apply Z.rem_divide in Hrem as [k ->]; [|done].
  rewrite Z.div_mul by done. change (2 ^ 32 - 1) with 4294967295.
  destruct (Z.leb_spec (0 * Z.pos den) (k * Z.pos den * 1)); [|discriminate].
  destruct (Z.leb_spec (k * Z.pos den * 1) (4294967295 * Z.pos den));
    [|discriminate].
  simpl. intros [= <-]. exists den. split; [reflexivity|nia].
Qed.

Lemma array_length_integral (L : Z) (den : positive) :
  0 ≤ L ≤ 2 ^ 32 - 1 → array_length (Finite (L * Z.pos den # den)) = Some L.
Proof.
  intros HL. unfold array_length, isInteger, Qle_bool. cbn [Qnum Qden inject_Z].
  rewrite Z.rem_mul, Z.div_mul, Z.eqb_refl by done.
  change (2 ^ 32 - 1) with 4294967295 in *.
  repeat match goal with
         | |- context [?a <=? ?b] => destruct (Z.leb_spec a b); [|nia]
         end.
  reflexivity.
Qed.

(** [m <= otpLength] for an [otpLength] that is the array length [L]. *)
Lemma num_le_array_length (x : jsnum) (L m : Z) :
  array_length x = Some L → num_le (of_Z m) x = (m <=? L).
Proof.
  intros HL. destruct (array_length_inv _ _ HL) as (den & -> & _).
  unfold num_le, of_Z, Qle_bool. cbn [Qnum Qden inject_Z].
  destruct (Z.leb_spec (m * Z.pos den) (L * Z.pos den * 1)),
    (Z.leb_spec m L); (reflexivity || nia).
Qed.

Lemma validated_length_accepted (x : jsnum) :
  validateOtpLength x = true → ∃ n, 1 ≤ n ≤ 20 ∧ array_length x = Some n.
Proof.
  destruct x as [| |q]; try discriminate. unfold validateOtpLength.
  intros Hvalid. apply andb_true_iff in Hvalid as [Hvalid Hhigh].
  apply andb_true_iff in Hvalid as [Hint Hlow].
  unfold isInteger in Hint. apply Z.eqb_eq in Hint.
  apply Z.rem_divide in Hint as [k Hk]; [|done].
  unfold num_le, of_Z, Qle_bool in Hlow, Hhigh. simpl in Hlow, Hhigh.
  apply Z.leb_le in Hlow, Hhigh.
  destruct q as [num den]. simpl in *. subst num.
  assert (Hk1 : 1 ≤ k ≤ 20) by nia.
  exists k. split; [assumption|].
  apply array_length_integral. lia.
Qed.

(** X1. [validateOtpLength] accepts exactly the integers from 1 to 20: it
    rejects [NaN], the infinities and every non-integer, and whatever it
    accepts is a length that [new Array] accepts too, so a validated length
    never makes a render throw. *)
Theorem validateOtpLength_spec :
  (∀ n, validateOtpLength (of_Z n) = true ↔ 1 ≤ n ≤ 20)
  ∧ validateOtpLength NaN = false
  ∧ (∀ negative, validateOtpLength (Infinity negative) = false)
  ∧ (∀ x, validateOtpLength x = true →
       ∃ n, 1 ≤ n ≤ 20 ∧ array_length x = Some n
            ∧ new_Array_fill x = Normal (replicate (Z.to_nat n) (Some []))).
Proof.
  split; [|split; [reflexivity|split; [by intros []|]]].
  - intros n. unfold validateOtpLength.
    rewrite isInteger_of_Z, !num_le_of_Z. simpl.
    destruct (Z.leb_spec 1 n), (Z.leb_spec n 20); simpl; split; (lia || done).
  - intros x Hvalid.
    destruct (validated_length_accepted x Hvalid) as (n & Hn & Hlen).
    exists n. split; [assumption|]. split; [exact Hlen|].
    unfold new_Array_fill. by rewrite Hlen.
Qed.

Lemma length_remove_dups_le {A} `{EqDecision A} (l : list A) :
  (length (remove_dups l) ≤ length l)%nat.
Proof.
  induction l as [|x l IH]; simpl; [lia|].
  destruct (decide_rel elem_of x l); simpl; lia.
Qed.

Lemma length_remove_dups_NoDup {A} `{EqDecision A} (l : list A) :
  length (remove_dups l) = length l ↔ NoDup l.
Proof.
  induction l as [|x l IH]; simpl.
  - split; [constructor|done].
  - pose proof (length_remove_dups_le l).
    destruct (decide_rel elem_of x l) as [Hin|Hnotin]; simpl.
    + split; [lia|]. intros Hnd. apply NoDup_cons in Hnd as [? _]. done.
    + split.
      * intros Hlen. apply NoDup_cons. split; [assumption|]. apply IH. lia.
      * intros Hnd. apply NoDup_cons in Hnd as [_ Hnd]. apply IH in Hnd. lia.
Qed.

Lemma trimStart_keeps (s : jsstring) (c : N) :
  c ∈ s → isWhiteSpace c = false → c ∈ trimStart s.
Proof.
  induction s as [|d s IH]; simpl; intros Hin Hc; [inversion Hin|].
  destruct (isWhiteSpace d) eqn:Hd; [|assumption].
  apply elem_of_cons in Hin as [->|Hin]; [congruence|auto].
Qed.

Lemma trimStart_subset (s : jsstring) (c : N) : c ∈ trimStart s → c ∈ s.
Proof.
  induction s as [|d s IH]; simpl; intros Hin; [assumption|].
  destruct (isWhiteSpace d); [right; auto|assumption].
Qed.

Lemma trimStart_nonempty (s : jsstring) :
  trimStart s ≠ [] ↔ ∃ c, c ∈ s ∧ isWhiteSpace c = false.
Proof.
  induction s as [|d s IH]; simpl.
  - split; [done|]. intros (c & Hin & _). inversion Hin.
  - destruct (isWhiteSpace d) eqn:Hd.
    + rewrite IH. split; intros (c & Hin & Hc).
      * exists c. split; [by right|assumption].
      * exists c. split; [|assumption].
        apply elem_of_cons in Hin as [->|Hin]; [congruence|assumption].
    + split; [|done]. intros _. exists d. split; [by left|assumption].
Qed.

(** [key.trim()] is not empty exactly when the key has a code unit that is
    not whitespace. *)
Lemma trim_nonempty (s : jsstring) :
  trim s ≠ [] ↔ ∃ c, c ∈ s ∧ isWhiteSpace c = false.
Proof.
  unfold trim. split.
  - intros Hne.
    assert (Hinner : trimStart (reverse (trimStart s)) ≠ []).
    { intros E. rewrite E in Hne. done. }
    apply trimStart_nonempty in Hinner as (c & Hin & Hc).
    exists c. split; [|assumption].
    rewrite elem_of_reverse in Hin. by apply trimStart_subset.
  - intros (c & Hin & Hc) E.
    apply (f_equal reverse) in E. rewrite reverse_involutive in E.
    change (reverse []) with (@nil N) in E.
    assert (Hne : trimStart (reverse (trimStart s)) ≠ []); [|done].
    apply trimStart_nonempty. exists c. split; [|assumption].
    rewrite elem_of_reverse. by apply trimStart_keeps.
Qed.

Lemma key_check_spec (k : jsstring) :
  truthy_string k && (0 <? length (trim k))%nat = true
  ↔ ∃ c, c ∈ k ∧ isWhiteSpace c = false.
Proof.
  rewrite <- trim_nonempty. split.
  - intros Hcheck. apply andb_true_iff in Hcheck as [_ Hlen].
    apply Nat.ltb_lt in Hlen. intros E. rewrite E in Hlen. simpl in Hlen. lia.
  - intros Hne. apply andb_true_iff. split.
    + destruct k; [|reflexivity]. done.
    + apply Nat.ltb_lt. destruct (trim k); [done|simpl; lia].
Qed.

Lemma validateSplitFields_cases (fields : list SplitField) :
  ((validateSplitFields fields).1 = true
   ↔ fields ≠ []
     ∧ NoDup (field_key <$> fields)
     ∧ Forall (λ field, ∃ c, c ∈ field_key field ∧ isWhiteSpace c = false) fields)
  ∧ (fields ≠ [] → ¬ NoDup (field_key <$> fields) →
       validateSplitFields fields = (false, [ConsoleWarn WarnSplitUniqueKeys]))
  ∧ (fields = [] ∨ NoDup (field_key <$> fields) →
       (validateSplitFields fields).2 = []).
Proof.
  unfold validateSplitFields.
  destruct fields as [|f fields]; [simpl; split; [split; [done|by intros [? _]]|split; done]|].
  cbn [length Nat.eqb].
  set (all := f :: fields).
  destruct (length (field_key <$> all) =? length (remove_dups (field_key <$> all)))%nat
    eqn:Hlen; cbn [negb].
  - apply Nat.eqb_eq in Hlen. symmetry in Hlen.
    apply length_remove_dups_NoDup in Hlen.
    split; [|split; [done|reflexivity]].
    cbn [fst]. rewrite forallb_forall, Forall_forall.
    split.
    + intros Hall. split; [done|]. split; [assumption|].
      intros field Hin. apply key_check_spec, Hall. by apply list_elem_of_In.
    + intros (_ & _ & Hall) field Hin.
      apply key_check_spec, Hall. by apply list_elem_of_In.
  - apply Nat.eqb_neq in Hlen.
    assert (Hdup : ¬ NoDup (field_key <$> all)).
    { intros Hnd. apply length_remove_dups_NoDup in Hnd. lia. }
    split; [|split; [reflexivity|]].
    + cbn [fst]. split; [done|]. intros (_ & Hnd & _). done.
    + intros [?|Hnd]; done.
Qed.

(** X2. [validateSplitFields] accepts a descriptor list exactly when it is
    not empty, its keys are pairwise distinct, and every key has a code
    unit that is not whitespace.  On the way it logs the unique-keys warning
    exactly when the list is not empty and two keys coincide; an empty list
    and a blank key are rejected without a log of its own. *)
Theorem validateSplitFields_spec (fields : list SplitField) :
  ((validateSplitFields fields).1 = true
   ↔ fields ≠ []
     ∧ NoDup (field_key <$> fields)
     ∧ Forall (λ field, ∃ c, c ∈ field_key field ∧ isWhiteSpace c = false) fields)
  ∧ (fields ≠ [] → ¬ NoDup (field_key <$> fields) →
       validateSplitFields fields = (false, [ConsoleWarn WarnSplitUniqueKeys]))
  ∧ (fields = [] ∨ NoDup (field_key <$> fields) →
       (validateSplitFields fields).2 = []).
Proof. apply validateSplitFields_cases. Qed.

(** ** Mounting *)

Lemma to_int_array_length (x : jsnum) (L : Z) :
  array_length x = Some L → to_int x = L.
Proof. intros HL. unfold to_int. by rewrite HL. Qed.

Lemma mount_otp (p : Props) (L : Z) :
  type p = type_otp → array_length (otpLength p) = Some L →
  let st0 := {| isFocused := false;
                otpValues := replicate (Z.to_nat L) (Some []);
                otpFocusedIndex := if otpAutoFocus p then 0 else -1;
                splitFocusedKey := []; otpRefs := [] |} in
  let st1 := otp_init_effect p st0 in
  mount p
  = Normal (st1, validation_effect p ++ auto_focus_effect p st1,
            OtpView (renderOtpInputs p L st0)).
Proof.
  intros Htype HL st0 st1.
  unfold mount, initial_state, render, new_Array_fill, bind.
  by rewrite HL, Htype, (to_int_array_length _ _ HL).
Qed.

Lemma otp_init_effect_refs (p : Props) (L : Z) (st : State) :
  type p = type_otp → array_length (otpLength p) = Some L →
  otpRefs (otp_init_effect p st)
  = take (Z.to_nat L) (otpRefs st)
    ++ replicate (Z.to_nat L - length (otpRefs st)) createRef.
Proof.
  intros Htype HL. unfold otp_init_effect.
  rewrite Htype, (to_int_array_length _ _ HL).
  rewrite for_range_append, length_take.
  replace (Z.to_nat L - Z.to_nat L `min` length (otpRefs st))%nat
    with (Z.to_nat L - length (otpRefs st))%nat by lia.
  by destruct (truthy_string (otpValue p) && _).
Qed.

Lemma otp_init_effect_values (p : Props) (L : Z) (st : State) :
  type p = type_otp → array_length (otpLength p) = Some L →
  otpValues (otp_init_effect p st)
  = if truthy_string (otpValue p) && (Z.of_nat (length (otpValue p)) <=? L)
    then ((λ c, Some [c]) <$> otpValue p)
         ++ replicate (Z.to_nat L - length (otpValue p)) (Some [])
    else otpValues st.
Proof.
  intros Htype HL. unfold otp_init_effect.
  rewrite Htype, (to_int_array_length _ _ HL).
  destruct (truthy_string (otpValue p)); [|reflexivity]. cbn [andb].
  destruct (Z.leb_spec (Z.of_nat (length (otpValue p))) L); [|reflexivity].
  cbn [otpValues setOtpValues].
  rewrite for_range_seed by lia. by rewrite firstn_all.
Qed.

Lemma otp_init_effect_focus (p : Props) (st : State) :
  otpFocusedIndex (otp_init_effect p st) = otpFocusedIndex st
  ∧ isFocused (otp_init_effect p st) = isFocused st
  ∧ splitFocusedKey (otp_init_effect p st) = splitFocusedKey st.
Proof.
  unfold otp_init_effect. destruct (type p); try done.
  by destruct (truthy_string (otpValue p) && _).
Qed.

Lemma join_seeded (s : jsstring) (k : nat) :
  join (((λ c, Some [c]) <$> s) ++ replicate k (Some [])) = s.
Proof.
  induction s as [|c s IH]; simpl.
  - induction k as [|k IHk]; [reflexivity|exact IHk].
  - unfold join in *. simpl. f_equal. exact IH.
Qed.

Lemma forallb_single_seeded (s : jsstring) (k : nat) :
  forallb single_cell (((λ c, Some [c]) <$> s) ++ replicate k (Some [])) = true.
Proof.
  rewrite forallb_app. apply andb_true_iff. split.
  - induction s as [|c s IH]; [reflexivity|exact IH].
  - induction k as [|k IH]; [reflexivity|exact IH].
Qed.

(** X3. Whenever [otpLength] is [NaN], infinite, not an integer, or an
    integer that is negative or above [2^32 - 1], every render throws a
    [RangeError], and so does the mount, before any effect can log: in the
    plain and the split mode too, which make no other use of [otpLength],
    and whatever the other props are. *)
Theorem render_throws_on_bad_otpLength (p : Props) :
  otpLength p = NaN
  ∨ (∃ negative, otpLength p = Infinity negative)
  ∨ (∃ q, otpLength p = Finite q ∧ isInteger (Finite q) = false)
  ∨ (∃ n, otpLength p = of_Z n ∧ (n < 0 ∨ 2 ^ 32 - 1 < n)) →
  mount p = Throw RangeError
  ∧ ∀ st, render p st = Throw RangeError.
Proof.
  intros Hbad.
  assert (Hnone : array_length (otpLength p) = None).
  { destruct Hbad as [-> |[[negative ->]|[(q & -> & Hq)|(n & -> & Hn)]]];
      try reflexivity.
    - unfold array_length. by rewrite Hq.
    - destruct (array_length (of_Z n)) as [L|] eqn:E; [|reflexivity].
      destruct (array_length_inv _ _ E) as (den & Hq & HL).
      unfold of_Z, inject_Z in Hq. injection Hq as Hnum Hden. subst den. lia. }
  unfold mount, initial_state, render, new_Array_fill, bind.
  by rewrite Hnone.
Qed.

Lemma render_throws_on_bad_otpLength_witness :
  mount (with_otpLength (of_Z (-3)) error_props) = Throw RangeError
  ∧ mount (with_otpLength (Finite (7 # 2)) date_props) = Throw RangeError
  ∧ mount error_props ≠ Throw RangeError.
Proof.
  split; [|split; [|discriminate]].
  - apply (render_throws_on_bad_otpLength (with_otpLength (of_Z (-3)) error_props)).
    right. right. right. exists (-3). split; [reflexivity|lia].
  - apply (render_throws_on_bad_otpLength
             (with_otpLength (Finite (7 # 2)) date_props)).
    right. right. left. exists (7 # 2)%Q. split; reflexivity.
Defined.

(** X4. An OTP configuration that passes validation (a validated length,
    and a seed that is empty or validated) mounts without an exception and
    without a warning: all that is logged or scheduled is the auto-focus
    timer, when auto-focus is on. *)
Theorem mount_valid_otp_silent (p : Props) :
  type p = type_otp →
  validateOtpLength (otpLength p) = true →
  otpValue p = [] ∨ validateOtpValue (otpValue p) (otpLength p) = true →
  ∃ st view,
    mount p
    = Normal (st,
              if otpAutoFocus p then [SetTimeout (TimerFocus 0) 100] else [],
              view).
Proof.
  intros Htype Hlen Hseed.
  destruct (validated_length_accepted _ Hlen) as (L & HL & Harr).
  rewrite (mount_otp p L Htype Harr). eexists _, _. f_equal. f_equal. f_equal.
  assert (Hquiet : validation_effect p = []).
  { unfold validation_effect. rewrite Htype, Hlen. simpl.
    destruct Hseed as [-> | ->]; [reflexivity|]. by rewrite andb_false_r. }
  rewrite Hquiet. simpl. unfold auto_focus_effect. rewrite Htype.
  destruct (otpAutoFocus p); [|reflexivity].
  rewrite (otp_init_effect_refs p L) by assumption. simpl.
  destruct (Z.to_nat L) as [|n] eqn:En; [lia|]. reflexivity.
Qed.

Lemma mount_valid_otp_silent_witness :
  ∃ st view,
    mount (otp_props (of_Z 6) (js "12") true)
    = Normal (st, [SetTimeout (TimerFocus 0) 100], view).
Proof.
  exact (mount_valid_otp_silent (otp_props (of_Z 6) (js "12") true)
           eq_refl eq_refl (or_intror eq_refl)).
Defined.

(** X5. Mounting in OTP mode with an array length [L]: when the seed is no
    longer than [L], the cells are the seed's characters, one per cell,
    followed by empty cells up to [L], and joining them gives the seed back;
    when the seed is longer than [L], all [L] cells are empty and the
    too-long warning is logged.  Either way the cell array has [L] slots of
    at most one character. *)
Theorem mount_seeds_cells (p : Props) (L : Z) :
  type p = type_otp →
  array_length (otpLength p) = Some L →
  ∃ st events view,
    mount p = Normal (st, events, view)
    ∧ (Z.of_nat (length (otpValue p)) ≤ L →
         otpValues st
         = ((λ c, Some [c]) <$> otpValue p)
           ++ replicate (Z.to_nat L - length (otpValue p)) (Some [])
         ∧ join (otpValues st) = otpValue p)
    ∧ (L < Z.of_nat (length (otpValue p)) →
         otpValues st = replicate (Z.to_nat L) (Some [])
         ∧ ConsoleWarn (WarnOtpValueTooLong (otpLength p) (otpValue p)) ∈ events)
    ∧ cells_wf L (otpValues st) = true.
Proof.
  intros Htype HL. rewrite (mount_otp p L Htype HL).
  destruct (array_length_inv _ _ HL) as (_ & _ & HL0).
  eexists _, _, _. split; [reflexivity|].
  rewrite (otp_init_effect_values p L) by assumption. cbn [otpValues].
  split; [|split].
  - intros Hfits. destruct (Z.leb_spec (Z.of_nat (length (otpValue p))) L); [|lia].
    destruct (otpValue p) as [|c seed] eqn:E.
    + simpl. rewrite Nat.sub_0_r. split; [reflexivity|].
      apply (join_seeded [] (Z.to_nat L)).
    + cbn [truthy_string andb]. split; [reflexivity|apply join_seeded].
  - intros Hlong. destruct (Z.leb_spec (Z.of_nat (length (otpValue p))) L); [lia|].
    rewrite andb_false_r. split; [reflexivity|].
    apply elem_of_app. left. unfold validation_effect. rewrite Htype.
    rewrite app_nil_r. apply elem_of_app. right.
    unfold validateOtpValue. rewrite (num_le_array_length _ L) by assumption.
    destruct (Z.leb_spec (Z.of_nat (length (otpValue p))) L); [lia|].
    destruct (otpValue p); [simpl in Hlong; lia|]. by left.
  - unfold cells_wf. apply andb_true_iff.
    destruct (truthy_string (otpValue p)
              && (Z.of_nat (length (otpValue p)) <=? L)) eqn:Hseed.
    + apply andb_true_iff in Hseed as [_ Hfits]. apply Z.leb_le in Hfits.
      split; [|apply forallb_single_seeded].
      apply Z.eqb_eq. rewrite length_app, length_fmap, length_replicate. lia.
    + split.
      * apply Z.eqb_eq. rewrite length_replicate. lia.
      * apply (forallb_single_seeded [] (Z.to_nat L)).
Qed.

Lemma mount_seeds_cells_witness :
  ∃ st events view,
    mount (otp_props (of_Z 4) (js "12") true) = Normal (st, events, view)
    ∧ otpValues st = [Some (js "1"); Some (js "2"); Some []; Some []]
    ∧ join (otpValues st) = js "12".
Proof.
  destruct (mount_seeds_cells (otp_props (of_Z 4) (js "12") true) 4
              eq_refl eq_refl)
    as (st & events & view & Hmount & Hfits & _ & _).
  exists st, events, view. split; [exact Hmount|].
  destruct (Hfits ltac:(simpl; lia)) as [Hcells Hjoin].
  split; [exact Hcells|exact Hjoin].
Defined.

(** X6. Mounting in OTP mode with an array length [L] leaves [L] fresh
    refs, none attached to an input yet, so that a focus or blur call
    through them does nothing until a later render attaches them; the
    focused index starts at 0 with auto-focus and at -1 without; and the
    only timer scheduled is the 100 ms focus of cell 0, exactly when
    auto-focus is on and there is at least one cell. *)
Theorem mount_refs_and_auto_focus (p : Props) (L : Z) :
  type p = type_otp →
  array_length (otpLength p) = Some L →
  ∃ st view,
    mount p
    = Normal (st,
              validation_effect p
              ++ (if otpAutoFocus p && (0 <? L)
                  then [SetTimeout (TimerFocus 0) 100] else []),
              view)
    ∧ otpRefs st = replicate (Z.to_nat L) createRef
    ∧ otpFocusedIndex st = (if otpAutoFocus p then 0 else -1)
    ∧ ∀ callback, fire (otpRefs st) callback = [].
Proof.
  intros Htype HL. rewrite (mount_otp p L Htype HL).
  set (st0 := {| isFocused := false;
                 otpValues := replicate (Z.to_nat L) (Some []);
                 otpFocusedIndex := if otpAutoFocus p then 0 else -1;
                 splitFocusedKey := []; otpRefs := [] |}).
  assert (Hrefs : otpRefs (otp_init_effect p st0) = replicate (Z.to_nat L) createRef).
  { rewrite (otp_init_effect_refs p L) by assumption. simpl.
    rewrite take_nil. simpl. by rewrite Nat.sub_0_r. }
  eexists _, _. split; [|split; [exact Hrefs|split]].
  - f_equal. f_equal. f_equal. f_equal.
    unfold auto_focus_effect. rewrite Htype, Hrefs.
    destruct (otpAutoFocus p); [|reflexivity]. cbn [andb].
    destruct (Z.ltb_spec 0 L).
    + destruct (Z.to_nat L) as [|n] eqn:En; [lia|]. reflexivity.
    + replace (Z.to_nat L) with 0%nat by lia. reflexivity.
  - apply otp_init_effect_focus.
  - intros callback. rewrite Hrefs.
    destruct callback as [index|index]; simpl; unfold ref_focus, ref_blur;
      destruct (index <? 0); try reflexivity;
      destruct (replicate (Z.to_nat L) createRef !! Z.to_nat index) as [r|] eqn:Hr;
      try reflexivity;
      apply lookup_replicate in Hr as [-> _]; reflexivity.
Qed.

Lemma mount_refs_and_auto_focus_witness :
  ∃ st view,
    mount (otp_props (of_Z 4) [] true)
    = Normal (st, [SetTimeout (TimerFocus 0) 100], view)
    ∧ otpRefs st = replicate 4 createRef.
Proof.
  destruct (mount_refs_and_auto_focus (otp_props (of_Z 4) [] true) 4
              eq_refl eq_refl)
    as (st & view & Hmount & Hrefs & _).
  exists st, view. split; [exact Hmount|exact Hrefs].
Defined.

(** ** Invariants of the OTP handlers *)

Lemma cells_wf_iff (L : Z) (cells : list (option jsstring)) :
  cells_wf L cells = true
  ↔ Z.of_nat (length cells) = L ∧ forallb single_cell cells = true.
Proof. unfold cells_wf. rewrite andb_true_iff, Z.eqb_eq. reflexivity. Qed.

Lemma forallb_single_insert (cells : list (option jsstring)) (i : nat)
    (v : option jsstring) :
  forallb single_cell cells = true → single_cell v = true →
  forallb single_cell (<[i := v]> cells) = true.
Proof.
  revert i. induction cells as [|x cells IH]; intros i Hall Hv; [done|].
  simpl in Hall. apply andb_true_iff in Hall as [Hx Hall].
  destruct i as [|i]; simpl; apply andb_true_iff; auto.
Qed.

Lemma array_set_in_range {A} (arr : list (option A)) (i : Z) (v : A) :
  0 ≤ i < Z.of_nat (length arr) →
  array_set arr i v = <[Z.to_nat i := Some v]> arr.
Proof.
  intros Hi. unfold array_set.
  destruct (Z.ltb_spec i 0); [lia|].
  destruct (Z.ltb_spec i (Z.of_nat (length arr))); [reflexivity|lia].
Qed.

Lemma array_set_wf (L : Z) (cells : list (option jsstring)) (i : Z) (s : jsstring) :
  cells_wf L cells = true → 0 ≤ i < L → (length s ≤ 1)%nat →
  cells_wf L (array_set cells i s) = true.
Proof.
  rewrite !cells_wf_iff. intros [Hlen Hall] Hi Hs.
  rewrite array_set_in_range by lia. rewrite length_insert. split; [assumption|].
  apply forallb_single_insert; [assumption|]. simpl. by apply Nat.leb_le.
Qed.

Lemma paste_loop_wf (L : Z) (rest : jsstring) :
  ∀ i cur vals nf,
    0 ≤ cur + i → cells_wf L vals = true →
    cells_wf L (paste_loop L rest i cur vals nf).1 = true.
Proof.
  induction rest as [|c rest IH]; intros i cur vals nf Hpos Hwf; simpl.
  - assumption.
  - destruct (Z.ltb_spec (cur + i) L); [|assumption].
    apply IH; [lia|]. apply array_set_wf; [assumption|lia|simpl; lia].
Qed.

Lemma join_cons (v : option jsstring) (cells : list (option jsstring)) :
  join (v :: cells) = default [] v ++ join cells.
Proof. reflexivity. Qed.

Lemma join_length_le (cells : list (option jsstring)) :
  forallb single_cell cells = true → (length (join cells) ≤ length cells)%nat.
Proof.
  induction cells as [|v cells IH]; intros Hall; [simpl; lia|].
  simpl in Hall. apply andb_true_iff in Hall as [Hv Hall].
  specialize (IH Hall). rewrite join_cons, length_app.
  destruct v as [s|]; [|discriminate]. simpl in Hv. apply Nat.leb_le in Hv.
  change (default [] (Some s)) with s.
  change (length (Some s :: cells)) with (S (length cells)). lia.
Qed.

Lemma call_onOtpChange_bounded (L : Z) (cb : bool)
    (cells : list (option jsstring)) (otp : jsstring) :
  cells_wf L cells = true →
  OnOtpChange otp ∈ call_onOtpChange cb cells → Z.of_nat (length otp) ≤ L.
Proof.
  rewrite cells_wf_iff. intros [Hlen Hall] Hin.
  unfold call_onOtpChange in Hin. destruct cb; [|inversion Hin].
  apply list_elem_of_singleton in Hin. injection Hin as ->.
  pose proof (join_length_le cells Hall). lia.
Qed.

(** What one paste keeps. *)
Lemma handleOtpPaste_inv (L : Z) (cb : bool) (text : jsstring) (i : Z) (st : State) :
  cells_wf L (otpValues st) = true →
  let r := handleOtpPaste L cb text i st in
  cells_wf L (otpValues r.1) = true
  ∧ (∀ otp, OnOtpChange otp ∈ r.2 → Z.of_nat (length otp) ≤ L)
  ∧ r.1 = setOtpValues (otpValues r.1) st.
Proof.
  intros Hwf r. subst r. unfold handleOtpPaste.
  destruct ((i <? 0) || (i >=? L)) eqn:Hguard.
  { cbn [fst snd]. split; [assumption|]. split; [|by destruct st].
    intros otp Hin. apply list_elem_of_singleton in Hin. discriminate. }
  apply orb_false_iff in Hguard as [Hlow Hhigh].
  apply Z.ltb_ge in Hlow.
  destruct (negb (truthy_string (replace_whitespace text))).
  { cbn [fst snd]. split; [assumption|]. split; [|by destruct st].
    intros otp Hin. inversion Hin. }
  pose proof (paste_loop_wf L (replace_whitespace text) 0 i (otpValues st) i
                ltac:(lia) Hwf) as Hloop.
  destruct (paste_loop L (replace_whitespace text) 0 i (otpValues st) i)
    as [newValues nextFocusIndex].
  cbn [fst snd otpValues setOtpValues] in *. split; [assumption|].
  split; [|reflexivity].
  intros otp Hin. apply elem_of_app in Hin as [Hin|Hin].
  - by apply (call_onOtpChange_bounded L cb newValues).
  - apply list_elem_of_singleton in Hin. discriminate.
Qed.

(** What one event keeps. *)
Lemma otp_step_inv (L : Z) (cb : bool) (a : OtpAction) (st : State) :
  cells_wf L (otpValues st) = true →
  let r := otp_step L cb a st in
  cells_wf L (otpValues r.1) = true
  ∧ (∀ otp, OnOtpChange otp ∈ r.2 → Z.of_nat (length otp) ≤ L)
  ∧ otpRefs r.1 = otpRefs st
  ∧ isFocused r.1 = isFocused st
  ∧ splitFocusedKey r.1 = splitFocusedKey st
  ∧ (0 ≤ L → focus_wf L st = true → focus_wf L r.1 = true).
Proof.
  intros Hwf r. subst r.
  assert (Hnone : ∀ otp e, e ≠ OnOtpChange otp → OnOtpChange otp ∈ [e] → Z.of_nat (length otp) ≤ L).
  { intros otp e Hne Hin. apply list_elem_of_singleton in Hin. congruence. }
  assert (Hnil : ∀ otp, OnOtpChange otp ∈ @nil Event → Z.of_nat (length otp) ≤ L).
  { intros otp Hin. inversion Hin. }
  destruct a as [text index|key index|index|]; cbn [otp_step].
  - unfold handleOtpChange.
    destruct ((index <? 0) || (index >=? L)) eqn:Hguard.
    { cbn [fst snd]. repeat (split; [done || (intros otp; by apply Hnone)|]). done. }
    apply orb_false_iff in Hguard as [Hlow Hhigh].
    apply Z.ltb_ge in Hlow.
    assert (index < L) by (destruct (Z.geb_spec index L); [discriminate|lia]).
    destruct (Z.gtb_spec (Z.of_nat (length text)) 1) as [Hlong|Hshort].
    + destruct (handleOtpPaste_inv L cb text index st Hwf) as (Hwf' & Hev & Hst).
      split; [assumption|]. split; [assumption|].
      rewrite Hst. cbn [otpRefs isFocused splitFocusedKey setOtpValues].
      repeat (split; [reflexivity|]). done.
    + cbn [fst snd otpValues otpRefs isFocused splitFocusedKey setOtpValues].
      assert (Hwf' : cells_wf L (array_set (otpValues st) index text) = true)
        by (apply array_set_wf; [assumption|lia|lia]).
      split; [assumption|]. split; [|repeat (split; [reflexivity|]); done].
      intros otp Hin. apply elem_of_app in Hin as [Hin|Hin].
      * by apply (call_onOtpChange_bounded L cb _ otp Hwf').
      * destruct (truthy_string text && (index <? L - 1)); [|inversion Hin].
        unfold ref_focus in Hin. destruct (index + 1 <? 0); [inversion Hin|].
        destruct (otpRefs st !! Z.to_nat (index + 1)) as [[[cell|]]|];
          try (inversion Hin; fail).
        apply list_elem_of_singleton in Hin. discriminate.
  - unfold handleOtpKeyPress.
    assert (Hfocus : ∀ otp j, OnOtpChange otp ∈ ref_focus (otpRefs st) j →
                              Z.of_nat (length otp) ≤ L).
    { intros otp j Hin. unfold ref_focus in Hin.
      destruct (j <? 0); [inversion Hin|].
      destruct (otpRefs st !! Z.to_nat j) as [[[cell|]]|]; try (inversion Hin; fail).
      apply list_elem_of_singleton in Hin. discriminate. }
    destruct ((index <? 0) || (index >=? L)).
    { cbn [fst snd]. repeat (split; [done || (intros otp; by apply Hnone)|]). done. }
    case_bool_decide; [|cbn [fst snd]; repeat (split; [done|]); done].
    destruct (negb (truthy (array_get (otpValues st) index)) && (index >? 0));
      cbn [fst snd]; repeat (split; [done || (intros otp; apply Hfocus)|]); done.
  - unfold handleOtpFocus.
    destruct (Z.geb_spec index 0); cbn [andb];
      [|cbn [fst snd]; repeat (split; [done|]); done].
    destruct (Z.ltb_spec index L);
      [|cbn [fst snd]; repeat (split; [done|]); done].
    cbn [fst snd otpValues otpRefs isFocused splitFocusedKey setOtpFocusedIndex].
    repeat (split; [done|]). intros _ _. unfold focus_wf.
    cbn [otpFocusedIndex setOtpFocusedIndex].
    apply andb_true_iff. split; [apply Z.leb_le; lia|apply Z.ltb_lt; lia].
  - unfold handleOtpBlur.
    cbn [fst snd otpValues otpRefs isFocused splitFocusedKey setOtpFocusedIndex].
    repeat (split; [done|]). intros HL _. unfold focus_wf.
    cbn [otpFocusedIndex setOtpFocusedIndex].
    apply andb_true_iff. split; [reflexivity|apply Z.ltb_lt; lia].
Qed.

Lemma otp_run_inv (L : Z) (cb : bool) (actions : list OtpAction) :
  ∀ st,
    cells_wf L (otpValues st) = true →
    let r := otp_run L cb actions st in
    cells_wf L (otpValues r.1) = true
    ∧ (∀ otp, OnOtpChange otp ∈ r.2 → Z.of_nat (length otp) ≤ L)
    ∧ otpRefs r.1 = otpRefs st
    ∧ isFocused r.1 = isFocused st
    ∧ splitFocusedKey r.1 = splitFocusedKey st
    ∧ (0 ≤ L → focus_wf L st = true → focus_wf L r.1 = true).
Proof.
  induction actions as [|a actions IH]; intros st Hwf; cbn [otp_run].
  - cbn [fst snd]. repeat (split; [done|]). split; [|done].
    intros otp Hin. inversion Hin.
  - destruct (otp_step_inv L cb a st Hwf) as (Hwf1 & Hev1 & Hrefs1 & Hfoc1 & Hkey1 & Hidx1).
    destruct (otp_step L cb a st) as [st1 events1]. cbn [fst snd] in *.
    destruct (IH st1 Hwf1) as (Hwf2 & Hev2 & Hrefs2 & Hfoc2 & Hkey2 & Hidx2).
    destruct (otp_run L cb actions st1) as [st2 events2]. cbn [fst snd] in *.
    split; [assumption|]. split; [|repeat split; try congruence; auto].
    intros otp Hin. apply elem_of_app in Hin as [Hin|Hin]; auto.
Qed.

(** X7. Whatever sequence of changes (pastes included), key presses, focus
    and blur events reaches the OTP handlers, with whatever texts and
    indices: a cell array of [L] slots holding at most one character each
    keeps that shape. *)
Theorem otp_cells_invariant (L : Z) (cb : bool) (actions : list OtpAction)
    (st : State) :
  cells_wf L (otpValues st) = true →
  cells_wf L (otpValues (otp_run L cb actions st).1) = true.
Proof. intros Hwf. apply (otp_run_inv L cb actions st Hwf). Qed.

Lemma otp_cells_invariant_witness :
  cells_wf 4 (otpValues
    (otp_run 4 true
       [ActChange (js "7") 0; ActChange (js "12 345") 1; ActKeyPress (js "Backspace") 3;
        ActChange [] 3; ActChange (js "9") 7]
       (otp_state 4 (replicate 4 (Some [])))).1) = true.
Proof.
  apply (otp_cells_invariant 4 true _ (otp_state 4 (replicate 4 (Some [])))).
  reflexivity.
Defined.

(** X8. Over any sequence of OTP events the focused index stays [-1] or the
    index of a cell, and the handlers never touch the refs, the plain
    input's focus flag or the split focus key. *)
Theorem otp_focus_invariant (L : Z) (cb : bool) (actions : list OtpAction)
    (st : State) :
  cells_wf L (otpValues st) = true →
  focus_wf L st = true →
  let st' := (otp_run L cb actions st).1 in
  focus_wf L st' = true
  ∧ otpRefs st' = otpRefs st
  ∧ isFocused st' = isFocused st
  ∧ splitFocusedKey st' = splitFocusedKey st.
Proof.
  intros Hwf Hfocus st'.
  destruct (otp_run_inv L cb actions st Hwf) as (_ & _ & Hrefs & Hfoc & Hkey & Hidx).
  split; [|auto].
  apply Hidx; [|assumption].
  apply cells_wf_iff in Hwf as [Hlen _]. lia.
Qed.

Lemma otp_focus_invariant_witness :
  focus_wf 4
    (otp_run 4 true [ActFocus 2; ActFocus 9; ActBlur; ActFocus (-3); ActFocus 3]
       (otp_state 4 (replicate 4 (Some [])))).1 = true.
Proof.
  apply (otp_focus_invariant 4 true _ (otp_state 4 (replicate 4 (Some []))));
    reflexivity.
Defined.

(** X9. Over any sequence of OTP events starting from a well-shaped cell
    array, every code passed to the caller's [onOtpChange] has at most [L]
    code units. *)
Theorem otp_aggregate_bounded (L : Z) (cb : bool) (actions : list OtpAction)
    (st : State) (otp : jsstring) :
  cells_wf L (otpValues st) = true →
  OnOtpChange otp ∈ (otp_run L cb actions st).2 →
  Z.of_nat (length otp) ≤ L.
Proof.
  intros Hwf. apply (otp_run_inv L cb actions st Hwf).
Qed.

Lemma otp_aggregate_bounded_witness :
  let events :=
    (otp_run 4 true [ActChange (js "7") 0; ActChange (js "12 345") 1]
       (otp_state 4 (replicate 4 (Some [])))).2 in
  OnOtpChange (js "7123") ∈ events ∧ Z.of_nat (length (js "7123")) ≤ 4.
Proof.
  assert (Hin : OnOtpChange (js "7123")
                ∈ (otp_run 4 true [ActChange (js "7") 0; ActChange (js "12 345") 1]
                     (otp_state 4 (replicate 4 (Some [])))).2)
    by (simpl; do 2 right; left).
  split; [exact Hin|].
  exact (otp_aggregate_bounded 4 true
           [ActChange (js "7") 0; ActChange (js "12 345") 1]
           (otp_state 4 (replicate 4 (Some []))) (js "7123") eq_refl Hin).
Defined.

(** ** Pasting a whole code, typing it, and seeing it rendered *)

Lemma array_get_Some {A} (arr : list (option A)) (k : nat) (v : A) :
  array_get arr (Z.of_nat k) = Some v → arr !! k = Some (Some v).
Proof.
  unfold array_get. destruct (Z.ltb_spec (Z.of_nat k) 0); [lia|].
  rewrite Nat2Z.id. destruct (arr !! k) as [[x|]|]; simpl; congruence.
Qed.

Lemma paste_loop_fst_shift (L : Z) (rest : jsstring) :
  ∀ i cur i' cur' vals nf nf',
    cur + i = cur' + i' →
    (paste_loop L rest i cur vals nf).1 = (paste_loop L rest i' cur' vals nf').1.
Proof.
  induction rest as [|c rest IH]; intros i cur i' cur' vals nf nf' Hsum; simpl.
  - reflexivity.
  - rewrite Hsum. destruct (cur' + i' <? L); [|reflexivity].
    apply IH. lia.
Qed.

(** X10. Pasting at cell 0 a text whose cleaned form has at least [L]
    characters, into a cell array of [L] slots: whatever the cells held, the
    cells of the resulting state are the first [L] cleaned characters, one
    per cell, and join to exactly those characters; the callback receives
    exactly those [L] characters; the only focus action is the blur call on
    the last cell; and the focused index and the refs are left alone. *)
Theorem full_paste_overwrites (L : Z) (cb : bool) (st : State) (P : jsstring) :
  0 < L →
  Z.of_nat (length (otpValues st)) = L →
  L ≤ Z.of_nat (length (replace_whitespace P)) →
  let code := take (Z.to_nat L) (replace_whitespace P) in
  let r := handleOtpPaste L cb P 0 st in
  otpValues r.1 = (λ c, Some [c]) <$> code
  ∧ join (otpValues r.1) = code
  ∧ r.2 = (if cb then [OnOtpChange code] else [])
          ++ [SetTimeout (TimerBlur (L - 1)) 50]
  ∧ otpFocusedIndex r.1 = otpFocusedIndex st
  ∧ otpRefs r.1 = otpRefs st.
Proof.
  intros HL Hlen Hlong code r.
  set (S := replace_whitespace P) in *.
  assert (HS : S ≠ []) by (intros E; rewrite E in Hlong; simpl in Hlong; lia).
  assert (Hcells : (paste_loop L S 0 0 (otpValues st) 0).1 = (λ c, Some [c]) <$> code).
  { apply list_eq. intros k.
    destruct (decide (k < Z.to_nat L)%nat) as [Hk|Hk].
    - destruct (lookup_lt_is_Some_2 S k) as [c Hc]; [lia|].
      rewrite list_lookup_fmap. subst code. rewrite lookup_take_lt, Hc by lia.
      simpl. apply array_get_Some.
      replace (Z.of_nat k) with (0 + 0 + Z.of_nat k) by lia.
      apply paste_loop_written; [lia|assumption|lia].
    - rewrite !lookup_ge_None_2; [reflexivity| |].
      + rewrite length_fmap. subst code. rewrite length_take. lia.
      + rewrite paste_loop_length by lia. lia. }
  assert (Hjoin : join ((λ c, Some [c]) <$> code) = code).
  { pose proof (join_seeded code 0) as Hj. by rewrite app_nil_r in Hj. }
  assert (Hr : r = (setOtpValues ((λ c, Some [c]) <$> code) st,
                    (if cb then [OnOtpChange code] else [])
                    ++ [SetTimeout (TimerBlur (L - 1)) 50])).
  { subst r. rewrite handleOtpPaste_in_range by (assumption || lia). fold S.
    rewrite Hcells.
    rewrite paste_loop_last by (assumption || lia).
    replace (Z.min (0 + 0 + Z.of_nat (length S)) L - 1) with (L - 1) by lia.
    f_equal. f_equal.
    - unfold call_onOtpChange. destruct cb; [|reflexivity]. by rewrite Hjoin.
    - f_equal. f_equal.
      destruct (paste_focus_spec L ((λ c, Some [c]) <$> code) (L - 1) ltac:(lia))
        as [(j & (Hj & [Hjlen _] & _) & _)|[_ ->]].
      + rewrite length_fmap in Hjlen. subst code. rewrite length_take in Hjlen. lia.
      + destruct (Z.ltb_spec (L - 1 + 1) L); [lia|reflexivity]. }
  rewrite Hr. cbn [fst snd otpValues otpFocusedIndex otpRefs setOtpValues].
  split; [reflexivity|]. split; [exact Hjoin|]. split; [reflexivity|].
  split; reflexivity.
Qed.

Lemma full_paste_overwrites_witness :
  let st := otp_state 4 [Some (js "9"); Some []; Some (js "8"); Some []] in
  let r := handleOtpPaste 4 true (js "12 34 56") 0 st in
  otpValues r.1 = [Some (js "1"); Some (js "2"); Some (js "3"); Some (js "4")]
  ∧ r.2 = [OnOtpChange (js "1234"); SetTimeout (TimerBlur 3) 50].
Proof.
  pose proof (full_paste_overwrites 4 true
                (otp_state 4 [Some (js "9"); Some []; Some (js "8"); Some []])
                (js "12 34 56") ltac:(lia) eq_refl ltac:(simpl; lia))
    as (Hcells & _ & Hevents & _).
  split; [exact Hcells|exact Hevents].
Defined.

Lemma type_from_cells (L : Z) (cb : bool) (text : jsstring) :
  ∀ i st nf,
    0 ≤ i → i + Z.of_nat (length text) ≤ L →
    otpValues (otp_run L cb (type_from i text) st).1
    = (paste_loop L text 0 i (otpValues st) nf).1.
Proof.
  induction text as [|c text IH]; intros i st nf Hi Hfit; [reflexivity|].
  cbn [type_from otp_run otp_step]. simpl length in Hfit.
  unfold handleOtpChange at 1.
  destruct (Z.ltb_spec i 0); [lia|]. destruct (Z.geb_spec i L); [lia|].
  cbn [orb length]. destruct (Z.gtb_spec (Z.of_nat 1) 1); [lia|].
  specialize (IH (i + 1) (setOtpValues (array_set (otpValues st) i [c]) st) i
                ltac:(lia) ltac:(lia)).
  destruct (otp_run L cb (type_from (i + 1) text)
              (setOtpValues (array_set (otpValues st) i [c]) st)) as [st2 events2].
  cbn [fst] in *. rewrite IH. cbn [otpValues setOtpValues paste_loop].
  rewrite Z.add_0_r. destruct (Z.ltb_spec i L); [|lia].
  apply paste_loop_fst_shift. lia.
Qed.

(** X11. Typing a text without whitespace character by character, into the
    cells from [i] on, leaves the cells exactly as pasting the text at cell
    [i] does, provided the text fits between [i] and the last cell. *)
Theorem typing_equals_paste (L : Z) (cb : bool) (st : State) (text : jsstring)
    (i : Z) :
  0 ≤ i →
  i + Z.of_nat (length text) ≤ L →
  text ≠ [] →
  replace_whitespace text = text →
  otpValues (otp_run L cb (type_from i text) st).1
  = otpValues (handleOtpPaste L cb text i st).1.
Proof.
  intros Hi Hfit Hne Hclean.
  assert (0 < Z.of_nat (length text)) by (destruct text; [done|simpl; lia]).
  rewrite handleOtpPaste_in_range by (rewrite ?Hclean; (assumption || lia)).
  rewrite Hclean. cbn [fst otpValues setOtpValues].
  by apply type_from_cells.
Qed.

Lemma typing_equals_paste_witness :
  let st := otp_state 6 (replicate 6 (Some [])) in
  otpValues (otp_run 6 true (type_from 1 (js "2468")) st).1
  = otpValues (handleOtpPaste 6 true (js "2468") 1 st).1.
Proof.
  apply (typing_equals_paste 6 true (otp_state 6 (replicate 6 (Some [])))
           (js "2468") 1); [lia|simpl; lia|discriminate|reflexivity].
Defined.

(** X12. After a change of at most one code unit at an in-range cell [i],
    the next render shows [L] cells: cell [i] shows the new text, the empty
    string after a deletion, and every other cell shows what the cell array
    held for it before, the empty string where it held nothing. *)
Theorem render_after_change (p : Props) (L : Z) (cb : bool) (st : State)
    (text : jsstring) (i : Z) :
  0 ≤ i < L →
  (length text ≤ 1)%nat →
  let st' := (handleOtpChange L cb text i st).1 in
  length (renderOtpInputs p L st') = Z.to_nat L
  ∧ ∀ j : nat, (j < Z.to_nat L)%nat →
      cell_value <$> (renderOtpInputs p L st' !! j)
      = Some (if decide (Z.of_nat j = i) then text
              else default [] (array_get (otpValues st) (Z.of_nat j))).
Proof.
  intros Hi Htext st'.
  assert (Hst : otpValues st' = array_set (otpValues st) i text).
  { subst st'. unfold handleOtpChange.
    destruct (Z.ltb_spec i 0); [lia|]. destruct (Z.geb_spec i L); [lia|].
    cbn [orb]. destruct (Z.gtb_spec (Z.of_nat (length text)) 1); [lia|].
    reflexivity. }
  unfold renderOtpInputs. split; [by rewrite length_fmap, length_seq|].
  intros j Hj. rewrite list_lookup_fmap, lookup_seq_lt by assumption.
  cbn [fmap option_fmap option_map cell_value Nat.add]. rewrite Hst. f_equal.
  destruct (decide (Z.of_nat j = i)) as [->|Hne].
  - rewrite array_get_set_eq by lia. reflexivity.
  - rewrite array_get_set_ne by congruence. reflexivity.
Qed.

Lemma render_after_change_witness :
  let st := otp_state 4 [Some (js "9"); Some (js "5"); Some []; Some []] in
  cell_value <$> (renderOtpInputs default_props 4
                    (handleOtpChange 4 true (js "7") 2 st).1 !! 2%nat)
  = Some (js "7").
Proof.
  exact (proj2 (render_after_change default_props 4 true
                  (otp_state 4 [Some (js "9"); Some (js "5"); Some []; Some []])
                  (js "7") 2 ltac:(lia) ltac:(simpl; lia))
           2%nat ltac:(simpl; lia)).
Defined.

(** ** Split mode: rendering after an edit, layout, disabled styling *)

Lemma renderSplitInputs_lookup (p : Props) (st : State) (n : nat)
    (field : SplitField) :
  splitFields p !! n = Some field →
  ∃ view,
    renderSplitInputs p st !! n = Some view
    ∧ input_key view = field_key field
    ∧ input_value view = default [] (splitValues p !! field_key field)
    ∧ input_marginRight view
      = (if Z.of_nat n <? Z.of_nat (length (splitFields p)) - 1
         then splitSpacing p else 0%Q)
    ∧ input_flex view = num_or (field_flex field) 1
    ∧ input_editable view = default (editable p) (field_editable field)
    ∧ input_containerStyle view = getSplitInputContainerStyle p st field
    ∧ input_style view = getSplitInputStyle p st field.
Proof.
  intros Hfield. unfold renderSplitInputs.
  rewrite list_lookup_imap, Hfield. simpl. eexists. split; [reflexivity|].
  simpl. split; [reflexivity|]. split; [by destruct (splitValues p !! field_key field)|].
  split; [reflexivity|]. split; [reflexivity|].
  split; [by destruct (field_editable field)|]. split; reflexivity.
Qed.

(** X13. When a split edit has called the callback with a map and the
    caller renders again with that map as [splitValues], the edited field
    shows the new text and every field with another key shows what it
    showed before. *)
Theorem split_edit_round_trip (p : Props) (st : State) (k text : jsstring)
    (values : gmap jsstring jsstring) (n : nat) (field : SplitField) :
  splitFields p !! n = Some field →
  field_key field = k →
  handleSplitChange p k text st = (st, [OnSplitChange values k text]) →
  let p' := with_splitValues values p in
  input_value <$> (renderSplitInputs p' st !! n) = Some text
  ∧ ∀ m other,
      splitFields p !! m = Some other → field_key other ≠ k →
      input_value <$> (renderSplitInputs p' st !! m)
      = input_value <$> (renderSplitInputs p st !! m).
Proof.
  intros Hfield Hkey Hcall p'.
  assert (Hvalues : values = <[k := text]> (splitValues p)).
  { unfold handleSplitChange in Hcall.
    destruct (List.find _ (splitFields p)); [|discriminate].
    destruct (onSplitChange p); [|discriminate]. congruence. }
  split.
  - destruct (renderSplitInputs_lookup p' st n field Hfield)
      as (view & -> & _ & Hvalue & _).
    simpl. rewrite Hvalue. subst p'. cbn [splitValues with_splitValues].
    by rewrite Hvalues, Hkey, lookup_insert_eq.
  - intros m other Hother Hne.
    destruct (renderSplitInputs_lookup p' st m other Hother)
      as (view' & -> & _ & Hvalue' & _).
    destruct (renderSplitInputs_lookup p st m other Hother)
      as (view & -> & _ & Hvalue & _).
    simpl. rewrite Hvalue', Hvalue. subst p'. cbn [splitValues with_splitValues].
    by rewrite Hvalues, lookup_insert_ne.
Qed.

Lemma split_edit_round_trip_witness :
  ∃ values,
    handleSplitChange date_props (js "mm") (js "07") (otp_state 0 [])
    = (otp_state 0 [], [OnSplitChange values (js "mm") (js "07")])
    ∧ input_value
        <$> (renderSplitInputs (with_splitValues values date_props)
               (otp_state 0 []) !! 0%nat)
      = Some (js "07").
Proof.
  exists (<[js "mm" := js "07"]> (splitValues date_props)).
  split; [reflexivity|].
  exact (proj1 (split_edit_round_trip date_props (otp_state 0 [])
                  (js "mm") (js "07")
                  (<[js "mm" := js "07"]> (splitValues date_props))
                  0 (plain_field (js "mm")) eq_refl eq_refl eq_refl)).
Defined.

(** X14. The split inputs are rendered one per descriptor, in the order of
    the descriptors and under their keys; every input but the last has
    [splitSpacing] as its right margin and the last has none; a field whose
    [flex] is unset or 0 gets the weight 1. *)
Theorem split_layout (p : Props) (st : State) :
  input_key <$> renderSplitInputs p st = field_key <$> splitFields p
  ∧ ∀ n field,
      splitFields p !! n = Some field →
      ∃ view,
        renderSplitInputs p st !! n = Some view
        ∧ input_marginRight view
          = (if decide (S n = length (splitFields p)) then 0%Q else splitSpacing p)
        ∧ (field_flex field = None ∨ field_flex field = Some 0%Q →
             input_flex view = 1%Q).
Proof.
  split.
  - apply list_eq. intros n. rewrite !list_lookup_fmap.
    destruct (splitFields p !! n) as [field|] eqn:Hfield.
    + destruct (renderSplitInputs_lookup p st n field Hfield)
        as (view & -> & Hkey & _).
      simpl. by rewrite Hkey.
    + unfold renderSplitInputs. by rewrite list_lookup_imap, Hfield.
  - intros n field Hfield.
    destruct (renderSplitInputs_lookup p st n field Hfield)
      as (view & Hview & _ & _ & Hmargin & Hflex & _).
    exists view. split; [assumption|]. split.
    + rewrite Hmargin. apply lookup_lt_Some in Hfield.
      destruct (Z.ltb_spec (Z.of_nat n) (Z.of_nat (length (splitFields p)) - 1)),
        (decide (S n = length (splitFields p))); (reflexivity || lia).
    + rewrite Hflex. by intros [-> | ->].
Qed.

(** X15. The disabled styling of a split field follows the descriptor's own
    [editable] flag only.  A field that leaves [editable] unset in a group
    with [editable = false] is rendered as a non-editable input, yet its
    container and text styles are those of an enabled field: base, caller
    override, focus fragments, error overlay, and no disabled overlay. *)
Theorem split_group_disabled_not_styled (p : Props) (st : State) (n : nat)
    (field : SplitField) :
  splitFields p !! n = Some field →
  field_editable field = None →
  editable p = false →
  ∃ view,
    renderSplitInputs p st !! n = Some view
    ∧ input_editable view = false
    ∧ input_containerStyle view
      = [styles.splitInputContainer; or_empty (splitInputContainerStyle p)]
        ++ (if bool_decide (splitFocusedKey st = field_key field)
            then styles.splitFocusedInputContainer
                 :: option_list (splitFocusedInputContainerStyle p)
            else [])
        ++ (if truthy (error p) then [styles.errorInputContainer] else [])
    ∧ input_style view
      = [styles.splitInput; or_empty (splitInputStyle p)]
        ++ (if bool_decide (splitFocusedKey st = field_key field)
            then option_list (splitFocusedInputStyle p) else []).
Proof.
  intros Hfield Hunset Hgroup.
  destruct (renderSplitInputs_lookup p st n field Hfield)
    as (view & Hview & _ & _ & _ & _ & Heditable & Hcontainer & Hstyle).
  exists view. split; [assumption|]. split; [by rewrite Heditable, Hunset|].
  split.
  - rewrite Hcontainer.
    unfold getSplitInputContainerStyle, field_disabled, push_if_set, push,
      filter_Boolean.
    rewrite Hunset.
    destruct (bool_decide (splitFocusedKey st = field_key field)),
      (truthy (error p)), (splitFocusedInputContainerStyle p); reflexivity.
  - rewrite Hstyle.
    unfold getSplitInputStyle, field_disabled, push_if_set, push, filter_Boolean.
    rewrite Hunset.
    destruct (bool_decide (splitFocusedKey st = field_key field)),
      (splitFocusedInputStyle p); simpl; by rewrite ?app_nil_r.
Qed.

Lemma split_group_disabled_not_styled_witness :
  ∃ view,
    renderSplitInputs (with_editable false date_props) (otp_state 0 []) !! 0%nat
    = Some view
    ∧ input_editable view = false
    ∧ input_containerStyle view = [styles.splitInputContainer; []]
    ∧ input_style view = [styles.splitInput; []].
Proof.
  destruct (split_group_disabled_not_styled (with_editable false date_props)
              (otp_state 0 []) 0 (plain_field (js "mm")) eq_refl eq_refl eq_refl)
    as (view & Hview & Heditable & Hcontainer & Hstyle).
  exists view. split; [exact Hview|]. split; [exact Heditable|].
  split; [exact Hcontainer|exact Hstyle].
Defined.

(** ** Text styles *)

(** X16. The text styles of an OTP cell and of the plain input are: the
    base, the caller's base override (the empty style when unset), the
    caller's focused style when the cell or input is focused and the caller
    set one (there is no built-in focused text style), and, when the input
    is not editable, the disabled text style followed by the caller's
    override of it.  An error never changes a text style. *)
Theorem text_style_resolution (p : Props) (st : State) (index : Z) :
  getOtpInputStyle p st index
  = [styles.otpInput; or_empty (otpInputStyle p)]
    ++ (if otpFocusedIndex st =? index
        then option_list (otpFocusedInputStyle p) else [])
    ++ (if editable p then []
        else styles.disabledInput :: option_list (disabledInputStyle p))
  ∧ getInputStyle p st
    = [styles.input; or_empty (inputStyle p)]
      ++ (if isFocused st then option_list (focusedInputStyle p) else [])
      ++ (if editable p then []
          else styles.disabledInput :: option_list (disabledInputStyle p)).
Proof.
  split.
  - unfold getOtpInputStyle, push_if_set, push, filter_Boolean.
    destruct (otpFocusedIndex st =? index), (editable p),
      (otpFocusedInputStyle p), (disabledInputStyle p); reflexivity.
  - unfold getInputStyle, push_if_set, push, filter_Boolean.
    destruct (isFocused st), (editable p),
      (focusedInputStyle p), (disabledInputStyle p); reflexivity.
Qed.

(** ** Running the OTP effect again *)

Lemma State_eq (s1 s2 : State) :
  isFocused s1 = isFocused s2 →
  otpValues s1 = otpValues s2 →
  otpFocusedIndex s1 = otpFocusedIndex s2 →
  splitFocusedKey s1 = splitFocusedKey s2 →
  otpRefs s1 = otpRefs s2 →
  s1 = s2.
Proof. destruct s1, s2. simpl. by intros -> -> -> -> ->. Qed.

(** X17. The OTP effect is idempotent: running it a second time with the
    same props, as React does when it replays effects, changes nothing.
    After one run in OTP mode the ref array has exactly [L] entries. *)
Theorem otp_init_effect_idempotent (p : Props) (L : Z) (st : State) :
  array_length (otpLength p) = Some L →
  otp_init_effect p (otp_init_effect p st) = otp_init_effect p st
  ∧ (type p = type_otp →
       length (otpRefs (otp_init_effect p st)) = Z.to_nat L).
Proof.
  intros HL.
  destruct (type p) eqn:Htype.
  - split; [|done]. unfold otp_init_effect. by rewrite Htype.
  - assert (Hlen : length (otpRefs (otp_init_effect p st)) = Z.to_nat L).
    { rewrite (otp_init_effect_refs p L) by assumption.
      rewrite length_app, length_take, length_replicate. lia. }
    split; [|done].
    destruct (otp_init_effect_focus p (otp_init_effect p st)) as (Hidx & Hfoc & Hkey).
    apply State_eq; try assumption.
    + rewrite (otp_init_effect_values p L (otp_init_effect p st)) by assumption.
      rewrite (otp_init_effect_values p L st) by assumption.
      by destruct (truthy_string (otpValue p) && _).
    + rewrite (otp_init_effect_refs p L (otp_init_effect p st)) by assumption.
      rewrite Hlen, Nat.sub_diag, app_nil_r. apply take_ge. lia.
  - split; [|done]. unfold otp_init_effect. by rewrite Htype.
Qed.

Lemma otp_init_effect_idempotent_witness :
  otp_init_effect (otp_props (of_Z 6) (js "9") true)
    (otp_init_effect (otp_props (of_Z 6) (js "9") true) filled_state)
  = otp_init_effect (otp_props (of_Z 6) (js "9") true) filled_state.
Proof.
  exact (proj1 (otp_init_effect_idempotent (otp_props (of_Z 6) (js "9") true) 6
                  filled_state eq_refl)).
Defined.

(** ** The theme context *)

(** X18. [useTheme] never throws: its guard tests an object, which is
    truthy, so outside every provider it returns the default theme.  Under
    providers, nested or not, it returns the merge the innermost provider
    made of the default theme and its own [theme] prop, so that an enclosing
    provider's theme is not inherited.  In that merge each of the four
    top-level members ([colors], [spacing], [borderRadius], [fontSize])
    keeps the default when the [theme] prop leaves it out and takes the
    prop's value when it sets it, even to [undefined]; a provider without a
    [theme] prop, or with one that sets no member, provides the default
    theme. *)
Theorem useTheme_spec :
  ThemeProvider.useTheme [] = inr ThemeProvider.defaultTheme
  ∧ (∀ inner outer,
       ThemeProvider.useTheme (inner :: outer)
       = inr (ThemeProvider.mergedTheme inner))
  ∧ ThemeProvider.mergedTheme None = ThemeProvider.defaultTheme
  ∧ (∀ t,
       let theme := ThemeProvider.mergedTheme (Some t) in
       (ThemeProvider.partial_colors t = ThemeProvider.Absent →
          ThemeProvider.colors theme
          = ThemeProvider.colors ThemeProvider.defaultTheme)
       ∧ (∀ v, ThemeProvider.partial_colors t = ThemeProvider.Present v →
            ThemeProvider.colors theme = v)
       ∧ (ThemeProvider.partial_spacing t = ThemeProvider.Absent →
            ThemeProvider.spacing theme
            = ThemeProvider.spacing ThemeProvider.defaultTheme)
       ∧ (∀ v, ThemeProvider.partial_spacing t = ThemeProvider.Present v →
            ThemeProvider.spacing theme = v)
       ∧ (ThemeProvider.partial_borderRadius t = ThemeProvider.Absent →
            ThemeProvider.borderRadius theme = Some 8%Q)
       ∧ (∀ v, ThemeProvider.partial_borderRadius t = ThemeProvider.Present v →
            ThemeProvider.borderRadius theme = v)
       ∧ (ThemeProvider.partial_fontSize t = ThemeProvider.Absent →
            ThemeProvider.fontSize theme
            = ThemeProvider.fontSize ThemeProvider.defaultTheme)
       ∧ (∀ v, ThemeProvider.partial_fontSize t = ThemeProvider.Present v →
            ThemeProvider.fontSize theme = v)
       ∧ (ThemeProvider.partial_colors t = ThemeProvider.Absent →
          ThemeProvider.partial_spacing t = ThemeProvider.Absent →
          ThemeProvider.partial_borderRadius t = ThemeProvider.Absent →
          ThemeProvider.partial_fontSize t = ThemeProvider.Absent →
          theme = ThemeProvider.defaultTheme)).
Proof.
  split; [reflexivity|]. split; [reflexivity|]. split; [reflexivity|].
  intros t theme. subst theme. simpl.
  split; [by intros ->|]. split; [by intros v ->|].
  split; [by intros ->|]. split; [by intros v ->|].
  split; [by intros ->|]. split; [by intros v ->|].
  split; [by intros ->|]. split; [by intros v ->|].
  by intros -> -> -> ->.
Qed.

(** ** Diagnostics and duplicate keys in split mode *)

(** X19. What the validation effect logs in split mode: nothing for a
    descriptor list that passes validation; one warning naming the list for
    an empty list; the unique-keys warning followed by the warning naming
    the list when two keys coincide; and in the plain mode nothing at all,
    whatever the props. *)
Theorem split_validation_diagnostics (p : Props) :
  (type p = type_default → validation_effect p = [])
  ∧ (type p = type_split →
       ((validateSplitFields (splitFields p)).1 = true →
          validation_effect p = [])
       ∧ (splitFields p = [] →
            validation_effect p = [ConsoleWarn (WarnSplitFields [])])
       ∧ (splitFields p ≠ [] → ¬ NoDup (field_key <$> splitFields p) →
            validation_effect p
            = [ConsoleWarn WarnSplitUniqueKeys;
               ConsoleWarn (WarnSplitFields (splitFields p))])).
Proof.
  split; [intros Htype; unfold validation_effect; by rewrite Htype|].
  intros Htype. unfold validation_effect. rewrite Htype. cbn [app].
  destruct (validateSplitFields_cases (splitFields p)) as (Hvalid & Hdup & Hquiet).
  split; [|split].
  - intros Hok.
    assert (Hlog : (validateSplitFields (splitFields p)).2 = []).
    { apply Hquiet. right. by apply Hvalid. }
    destruct (validateSplitFields (splitFields p)) as [valid logged].
    simpl in Hok, Hlog. by subst.
  - intros ->. reflexivity.
  - intros Hne Hnd. by rewrite (Hdup Hne Hnd).
Qed.

(** X20. Two split fields that share a key are one field to the
    component: an edit through one of them, once the caller renders with
    the map it received, shows the new text in both.  This is what the
    unique-keys validation warns about. *)
Theorem duplicate_keys_share_value (p : Props) (st : State) (n m : nat)
    (f g : SplitField) (text : jsstring) (values : gmap jsstring jsstring) :
  splitFields p !! n = Some f →
  splitFields p !! m = Some g →
  field_key f = field_key g →
  handleSplitChange p (field_key f) text st
  = (st, [OnSplitChange values (field_key f) text]) →
  let p' := with_splitValues values p in
  input_value <$> (renderSplitInputs p' st !! n) = Some text
  ∧ input_value <$> (renderSplitInputs p' st !! m) = Some text.
Proof.
  intros Hf Hg Hkey Hcall p'.
  assert (Hvalues : values = <[field_key f := text]> (splitValues p)).
  { unfold handleSplitChange in Hcall.
    destruct (List.find _ (splitFields p)); [|discriminate].
    destruct (onSplitChange p); [|discriminate]. congruence. }
  destruct (renderSplitInputs_lookup p' st n f Hf) as (vf & -> & _ & Hvf & _).
  destruct (renderSplitInputs_lookup p' st m g Hg) as (vg & -> & _ & Hvg & _).
  simpl. rewrite Hvf, Hvg. subst p'. cbn [splitValues with_splitValues].
  rewrite <- Hkey, Hvalues, lookup_insert_eq. split; reflexivity.
Qed.

Lemma duplicate_keys_share_value_witness :
  let values := <[js "mm" := js "07"]> (splitValues twin_props) in
  input_value <$> (renderSplitInputs (with_splitValues values twin_props)
                     (otp_state 0 []) !! 0%nat) = Some (js "07")
  ∧ input_value <$> (renderSplitInputs (with_splitValues values twin_props)
                       (otp_state 0 []) !! 1%nat) = Some (js "07").
Proof.
  exact (duplicate_keys_share_value twin_props (otp_state 0 []) 0 1
           (plain_field (js "mm")) (plain_field (js "mm")) (js "07")
           (<[js "mm" := js "07"]> (splitValues twin_props))
           eq_refl eq_refl eq_refl eq_refl).
Defined.
